(** * checkProcs: the process-table reader and its status-record parser

    A shallow embedding of [checkProcs.go].  The program reads the Linux
    process registry ([/proc]), parses every [/proc/<pid>/stat] record into
    a [UnixProcess] and looks for a process with a given executable name
    whose parent is pid 1.

    Go values are modelled as follows.
    - [int], [int64] and [rune] are [Z]; all values the program computes
      stay far inside 64 bits, and the places where Go checks a range
      ([strconv.ParseInt]) check it here too.
    - [string] is [String.string]: a sequence of bytes, indexed and sliced
      by byte, exactly like a Go string.
    - A Go result pair [(v, err)] is a pair whose second component is an
      [option error] ([None] is [nil]).  A pointer or slice that can be
      [nil] is an [option].
    - A run-time panic (slice bounds, index out of range) and [os.Exit]
      end the program; they are the two abnormal constructors of
      [outcome].
    - The operating system is the record [World]: what [os.Stat],
      [ioutil.ReadFile] and [os.Open]/[Readdir] answer. *)

From Stdlib Require Import ZArith List String Ascii Bool Lia.
From Stdlib Require Import DecimalString DecimalZ DecimalPos DecimalN DecimalFacts.
Import ListNotations.

Local Open Scope string_scope.
Local Open Scope Z_scope.

(** ** Run-time outcomes *)

Inductive panic : Type :=
| SliceBounds   (* "slice bounds out of range" *)
| IndexRange.   (* "index out of range" *)

Inductive outcome (A : Type) : Type :=
| Done (a : A)            (* the call returns normally *)
| Panic (why : panic)     (* unrecovered run-time panic *)
| Exit (code : Z).        (* os.Exit(code) *)

Arguments Done {A} a.
Arguments Panic {A} why.
Arguments Exit {A} code.

Definition bind {A B : Type} (m : outcome A) (k : A -> outcome B) : outcome B :=
  match m with
  | Done a => k a
  | Panic why => Panic why
  | Exit code => Exit code
  end.

Declare Scope go_scope.
Delimit Scope go_scope with go.
Notation "x <- m ;; k" := (bind m (fun x => k))
  (at level 61, m at next level, right associativity) : go_scope.
Notation "' pat <- m ;; k" := (bind m (fun x => match x with pat => k end))
  (at level 61, pat pattern, m at next level, right associativity) : go_scope.
Notation "m ;;; k" := (bind m (fun _ => k))
  (at level 61, right associativity) : go_scope.
Local Open Scope go_scope.

(** ** Errors *)

Inductive error : Type :=
| EOF                     (* io.EOF: the end of a listing or of the scanned input *)
| ErrNotExist             (* ENOENT: no such file or directory *)
| ErrPermission           (* EACCES *)
| ErrIO                   (* any other operating-system error *)
| ErrSyntax               (* strconv.ErrSyntax *)
| ErrRange                (* strconv.ErrRange *)
| ErrScan (why : string). (* fmt: the input does not match the format *)

(** [os.IsNotExist]. *)
Definition IsNotExist (e : error) : bool :=
  match e with ErrNotExist => true | _ => false end.

(** [err == io.EOF]. *)
Definition isEOF (e : error) : bool :=
  match e with EOF => true | _ => false end.

(** ** Bytes, strings and slices *)

Definition rune := Z.

Definition byteVal (c : ascii) : Z := Z.of_N (N_of_ascii c).

Definition len (s : string) : Z := Z.of_nat (String.length s).

(** [s[lo:hi]]: Go panics unless [0 <= lo <= hi <= len(s)]. *)
Definition slice (s : string) (lo hi : Z) : outcome string :=
  if (0 <=? lo) && (lo <=? hi) && (hi <=? len s)
  then Done (substring (Z.to_nat lo) (Z.to_nat (hi - lo)) s)
  else Panic SliceBounds.

(** [s[lo:]]. *)
Definition sliceFrom (s : string) (lo : Z) : outcome string :=
  slice s lo (len s).

(** [s[0]]: panics on the empty string. *)
Definition index0 (s : string) : outcome ascii :=
  match s with
  | EmptyString => Panic IndexRange
  | String c _ => Done c
  end.

(** [a[i]] on a slice of strings. *)
Definition indexArg (a : list string) (i : nat) : outcome string :=
  match nth_error a i with
  | Some s => Done s
  | None => Panic IndexRange
  end.

Module Strings.

(** [strings.IndexByte]: position of the first byte equal to [c], or -1. *)
Fixpoint IndexByte (s : string) (c : ascii) : Z :=
  match s with
  | EmptyString => -1
  | String a rest =>
      if Ascii.eqb a c then 0
      else let i := IndexByte rest c in
           if i <? 0 then -1 else i + 1
  end.

(** [strings.IndexRune] for a rune below [utf8.RuneSelf] (both calls of the
    program pass an ASCII rune, for which Go calls [IndexByte]). *)
Definition IndexRune (s : string) (r : ascii) : Z := IndexByte s r.

End Strings.

(** ** UTF-8 decoding ([unicode/utf8]) *)

Module Utf8.

Definition RuneError : rune := 0xFFFD.

(** The entry of table [first] for a lead byte at or above [0x80]: the
    sequence length and the accepted range of the second byte; [None] is
    the invalid entry [xx]. *)
Definition first (b : Z) : option (nat * Z * Z) :=
  if b <? 0xC2 then None
  else if b <=? 0xDF then Some (2%nat, 0x80, 0xBF)
  else if b =? 0xE0 then Some (3%nat, 0xA0, 0xBF)
  else if b <=? 0xEC then Some (3%nat, 0x80, 0xBF)
  else if b =? 0xED then Some (3%nat, 0x80, 0x9F)
  else if b <=? 0xEF then Some (3%nat, 0x80, 0xBF)
  else if b =? 0xF0 then Some (4%nat, 0x90, 0xBF)
  else if b <=? 0xF3 then Some (4%nat, 0x80, 0xBF)
  else if b =? 0xF4 then Some (4%nat, 0x80, 0x8F)
  else None.

Definition cont (b : Z) : bool := (0x80 <=? b) && (b <=? 0xBF).

(** [utf8.DecodeRuneInString]: the first rune of [s] and its width in
    bytes; an invalid or short sequence is [(RuneError, 1)]. *)
Definition DecodeRuneInString (s : string) : rune * nat :=
  match s with
  | EmptyString => (RuneError, 0%nat)
  | String c0 t0 =>
    let s0 := byteVal c0 in
    if s0 <? 0x80 then (s0, 1%nat)
    else
      match first s0, t0 with
      | Some (sz, lo, hi), String c1 t1 =>
        let s1 := byteVal c1 in
        if (s1 <? lo) || (hi <? s1) then (RuneError, 1%nat)
        else if (sz <=? 2)%nat
        then (Z.lor (Z.shiftl (Z.land s0 0x1F) 6) (Z.land s1 0x3F), 2%nat)
        else
          match t1 with
          | String c2 t2 =>
            let s2 := byteVal c2 in
            if negb (cont s2) then (RuneError, 1%nat)
            else if (sz <=? 3)%nat
            then (Z.lor (Z.lor (Z.shiftl (Z.land s0 0x0F) 12)
                               (Z.shiftl (Z.land s1 0x3F) 6))
                        (Z.land s2 0x3F), 3%nat)
            else
              match t2 with
              | String c3 _ =>
                let s3 := byteVal c3 in
                if negb (cont s3) then (RuneError, 1%nat)
                else (Z.lor (Z.lor (Z.lor (Z.shiftl (Z.land s0 0x07) 18)
                                          (Z.shiftl (Z.land s1 0x3F) 12))
                                   (Z.shiftl (Z.land s2 0x3F) 6))
                            (Z.land s3 0x3F), 4%nat)
              | EmptyString => (RuneError, 1%nat)
              end
          | EmptyString => (RuneError, 1%nat)
          end
      | _, _ => (RuneError, 1%nat)
      end
  end.

(** The runes a reader delivers for [s], one [DecodeRuneInString] after
    the other; [skip] counts the bytes of the current rune still to pass. *)
Fixpoint runesFrom (skip : nat) (s : string) : list rune :=
  match s with
  | EmptyString => []
  | String _ rest =>
      match skip with
      | S k => runesFrom k rest
      | O => let (r, size) := DecodeRuneInString s in
             r :: runesFrom (Nat.pred size) rest
      end
  end.

Definition runes (s : string) : list rune := runesFrom 0 s.

End Utf8.

(** ** Number conversion ([strconv] and the [%d] verb of [fmt.Sprintf]) *)

Module Strconv.

Definition IntSize : Z := 64.
Definition maxUint64 : Z := 2 ^ 64 - 1.

(** [lower(c)]: [c | ('x' - 'X')]. *)
Definition lower (b : Z) : Z := Z.lor b 0x20.

(** The digit value [ParseUint] gives a byte; [None] is its [default]
    case (neither a digit nor a letter). *)
Definition digitVal (c : ascii) : option Z :=
  let b := byteVal c in
  if (48 <=? b) && (b <=? 57) then Some (b - 48)
  else if (97 <=? lower b) && (lower b <=? 122) then Some (lower b - 97 + 10)
  else None.

(** The digit loop of [ParseUint] for a base in 2..36, with the
    accumulator [n] a [uint64]. *)
Fixpoint parseDigits (base cutoff maxVal : Z) (s : string) (n : Z)
  : Z * option error :=
  match s with
  | EmptyString => (n, None)
  | String c rest =>
      match digitVal c with
      | None => (0, Some ErrSyntax)
      | Some d =>
          if base <=? d then (0, Some ErrSyntax)
          else if cutoff <=? n then (maxVal, Some ErrRange)
          else
            let n' := n * base in
            let n1 := (n' + d) mod 2 ^ 64 in
            if (n1 <? n') || (maxVal <? n1) then (maxVal, Some ErrRange)
            else parseDigits base cutoff maxVal rest n1
      end
  end.

(** [strconv.ParseUint(s, base, bitSize)] for a base in 2..36 and a bit
    size in 0..64. *)
Definition ParseUint (s : string) (base bitSize : Z) : Z * option error :=
  match s with
  | EmptyString => (0, Some ErrSyntax)
  | _ =>
      let bitSize := if bitSize =? 0 then IntSize else bitSize in
      let cutoff := maxUint64 / base + 1 in
      let maxVal := 2 ^ bitSize - 1 in
      parseDigits base cutoff maxVal s 0
  end.

(** [strconv.ParseInt(s, base, bitSize)]. *)
Definition ParseInt (s : string) (base bitSize : Z) : Z * option error :=
  match s with
  | EmptyString => (0, Some ErrSyntax)
  | String c0 rest =>
      let neg := Ascii.eqb c0 "-" in
      let s' := if Ascii.eqb c0 "+" || neg then rest else s in
      let (un, err) := ParseUint s' base bitSize in
      match err with
      | Some ErrRange | None =>
          let bitSize := if bitSize =? 0 then IntSize else bitSize in
          let cutoff := 2 ^ (bitSize - 1) in
          if negb neg && (cutoff <=? un) then (cutoff - 1, Some ErrRange)
          else if neg && (cutoff <? un) then (- cutoff, Some ErrRange)
          else (if neg then - un else un, None)
      | Some e => (0, Some e)
      end
  end.

(** What [%d] prints for an [int]: the decimal digits, with a leading [-]
    for a negative number. *)
Definition FormatInt (i : Z) : string := NilZero.string_of_int (Z.to_int i).

End Strconv.

(** ** Scanning ([fmt.Sscanf]) *)

Module Fmt.

(** [isSpace]: the table [space] of [fmt/scan.go]. *)
Definition isSpace (r : rune) : bool :=
  ((0x0009 <=? r) && (r <=? 0x000d))
  || (r =? 0x0020) || (r =? 0x0085) || (r =? 0x00a0) || (r =? 0x1680)
  || ((0x2000 <=? r) && (r <=? 0x200a))
  || ((0x2028 <=? r) && (r <=? 0x2029))
  || (r =? 0x202f) || (r =? 0x205f) || (r =? 0x3000).

Definition newline : rune := 10.
Definition isDigit (r : rune) : bool := (48 <=? r) && (r <=? 57).
Definition isSign (r : rune) : bool := (r =? 43) || (r =? 45).

(** The scanner reads the input rune by rune; its state is the runes not
    yet consumed, and a failed scan is [inl err]. *)
Definition scan (A : Type) : Type := error + A * list rune.

(** The blanks loop of [advance]: spaces other than newline. *)
Fixpoint skipBlanks (inp : list rune) : list rune :=
  match inp with
  | r :: rest =>
      if isSpace r && negb (r =? newline) then skipBlanks rest else inp
  | [] => []
  end.

(** [advance] on a format that starts with one space: the input must be
    at its end or hold a space other than newline; the blanks that follow
    are consumed. *)
Definition advanceSpace (inp : list rune) : scan unit :=
  match inp with
  | [] => inr (tt, [])
  | r :: rest =>
      if negb (isSpace r)
      then inl (ErrScan "expected space in input to match format")
      else if r =? newline
      then inl (ErrScan "newline in input does not match format")
      else inr (tt, skipBlanks rest)
  end.

(** [SkipSpace] of the scan state, for a scan whose newlines are not
    spaces. *)
Fixpoint SkipSpace (inp : list rune) : scan unit :=
  match inp with
  | [] => inr (tt, [])
  | r :: rest =>
      if (r =? 13) && (match rest with n :: _ => n =? newline | [] => false end)
      then SkipSpace rest
      else if r =? newline then inl (ErrScan "unexpected newline")
      else if negb (isSpace r) then inr (tt, inp)
      else SkipSpace rest
  end.

(** [scanRune], the verb [%c]: the next rune, whatever it is.  At the end
    of the input [notEOF] panics with [io.EOF], which the scan returns. *)
Definition scanRune (inp : list rune) : scan rune :=
  match inp with
  | [] => inl EOF
  | r :: rest => inr (r, rest)
  end.

(** The runs [for s.accept(digits) {}] of [scanNumber]. *)
Fixpoint acceptDigits (inp : list rune) : list rune * list rune :=
  match inp with
  | r :: rest =>
      if isDigit r
      then let (ds, out) := acceptDigits rest in (r :: ds, out)
      else ([], inp)
  | [] => ([], [])
  end.

Definition tokenString (tok : list rune) : string :=
  string_of_list_ascii (map (fun r => ascii_of_N (Z.to_N r)) tok).

(** [scanInt] for the verb [%d] into an [int]. *)
Definition scanInt (inp : list rune) : scan Z :=
  match SkipSpace inp with
  | inl e => inl e
  | inr (_, inp) =>
    match inp with
    | [] => inl EOF                                      (* notEOF *)
    | r :: rest =>
      let (sign, inp) := if isSign r then ([r], rest) else ([], inp) in
      match inp with
      | [] => inl EOF                                    (* notEOF in scanNumber *)
      | d :: _ =>
        if negb (isDigit d) then inl (ErrScan "expected integer")
        else
          let (ds, out) := acceptDigits inp in
          match Strconv.ParseInt (tokenString (sign ++ ds)%list) 10 64 with
          | (_, Some e) => inl e
          | (i, None) => inr (i, out)
          end
      end
    end
  end.

(** One step [" %d"] of the format: the space, then the verb (which skips
    space before it scans). *)
Definition scanSpaceInt (inp : list rune) : scan Z :=
  match advanceSpace inp with
  | inl e => inl e
  | inr (_, inp) =>
    match SkipSpace inp with
    | inl e => inl e
    | inr (_, inp) => scanInt inp
    end
  end.

(** [fmt.Sscanf(data, "%c %d %d %d", ...)]: the operands scanned, in
    order, and the error that stopped the scan.  Go stores every operand
    through its pointer as soon as it is scanned, so the operands before
    an error are stored. *)
Definition Sscanf_c_d_d_d (data : string) : list Z * option error :=
  match scanRune (Utf8.runes data) with
  | inl e => ([], Some e)
  | inr (c, inp) =>
    match scanSpaceInt inp with
    | inl e => ([c], Some e)
    | inr (a, inp) =>
      match scanSpaceInt inp with
      | inl e => ([c; a], Some e)
      | inr (b, inp) =>
        match scanSpaceInt inp with
        | inl e => ([c; a; b], Some e)
        | inr (d, _) => ([c; a; b; d], None)
        end
      end
    end
  end.

End Fmt.

(** ** The operating system *)

(** [os.FileInfo], as far as the program looks at it. *)
Record FileInfo : Type := mkFileInfo { Name : string; IsDir : bool }.

(** An open directory, seen through successive [Readdir(10)] calls: each
    call returns a batch of entries and a nil error, until one returns an
    error ([io.EOF] at the end of the directory). *)
Inductive Dir : Type :=
| ReadErr (err : error)
| ReadBatch (fis : list FileInfo) (rest : Dir).

Record World : Type := mkWorld {
  Stat : string -> option error;        (* os.Stat: the error, nil if the path exists *)
  ReadFile : string -> string + error;  (* ioutil.ReadFile *)
  Open : string -> Dir + error          (* os.Open, then Readdir on the handle *)
}.

(** ** The program *)

Definition OK : Z := 0.
Definition WARNING : Z := 1.
Definition CRITICAL : Z := 2.
Definition UNKNOWN : Z := 3.

(** The interface [Process]: what every platform's process answers. *)
Class Process (A : Type) : Type := {
  Pid : A -> Z;               (* the process ID *)
  PPid : A -> Z;              (* the parent process ID *)
  Executable : A -> string    (* the executable name, not its path *)
}.

(** [UnixProcess], the implementation of [Process] for Unix. *)
Record UnixProcess : Type := mkUnixProcess {
  pid : Z;
  ppid : Z;
  state : rune;
  pgrp : Z;
  sid : Z;
  binary : string
}.

#[export] Instance UnixProcess_Process : Process UnixProcess :=
  {| Pid := fun p => pid p;
     PPid := fun p => ppid p;
     Executable := fun p => binary p |}.

Definition set_binary (p : UnixProcess) (b : string) : UnixProcess :=
  mkUnixProcess (pid p) (ppid p) (state p) (pgrp p) (sid p) b.

(** The stores [Sscanf] makes through [&p.state], [&p.ppid], [&p.pgrp]
    and [&p.sid], one per scanned operand. *)
Definition store (p : UnixProcess) (vals : list Z) : UnixProcess :=
  match vals with
  | [] => p
  | [c] => mkUnixProcess (pid p) (ppid p) c (pgrp p) (sid p) (binary p)
  | [c; a] => mkUnixProcess (pid p) a c (pgrp p) (sid p) (binary p)
  | [c; a; b] => mkUnixProcess (pid p) a c b (sid p) (binary p)
  | c :: a :: b :: d :: _ => mkUnixProcess (pid p) a c b d (binary p)
  end.

Definition procDir (pid : Z) : string := "/proc/" ++ Strconv.FormatInt pid.
Definition statPath (pid : Z) : string :=
  "/proc/" ++ Strconv.FormatInt pid ++ "/stat".

(** [Refresh]: the receiver after the call, and the error. *)
Definition Refresh (w : World) (p : UnixProcess)
  : outcome (UnixProcess * option error) :=
  match ReadFile w (statPath (pid p)) with
  | inr err => Done (p, Some err)
  | inl data =>
      let binStart := Strings.IndexRune data "(" + 1 in
      tail <- sliceFrom data binStart ;;
      let binEnd := Strings.IndexRune tail ")" in
      bin <- slice data binStart (binStart + binEnd) ;;
      let p := set_binary p bin in
      data <- sliceFrom data (binStart + binEnd + 2) ;;
      let (vals, err) := Fmt.Sscanf_c_d_d_d data in
      Done (store p vals, err)
  end.

Definition newUnixProcess (pid : Z) (w : World)
  : outcome (UnixProcess * option error) :=
  Refresh w (mkUnixProcess pid 0 0 0 0 "").

Definition findProcess (pid : Z) (w : World)
  : outcome (option UnixProcess * option error) :=
  match Stat w (procDir pid) with
  | Some err =>
      if IsNotExist err then Done (None, None) else Done (None, Some err)
  | None =>
      '(p, err) <- newUnixProcess pid w ;;
      Done (Some p, err)
  end.

Definition FindProcess := findProcess.

(** The body of [for _, fi := range fis]. *)
Definition visit (w : World) (results : list UnixProcess) (fi : FileInfo)
  : outcome (list UnixProcess) :=
  if negb (IsDir fi) then Done results
  else
    let name := Name fi in
    c <- index0 name ;;
    if (byteVal c <? 48) || (57 <? byteVal c) then Done results
    else
      match Strconv.ParseInt name 10 0 with
      | (_, Some _) => Done results
      | (pid, None) =>
          '(p, err) <- newUnixProcess pid w ;;
          match err with
          | Some _ => Done results
          | None => Done (results ++ [p])%list
          end
      end.

Fixpoint rangeOver (w : World) (results : list UnixProcess)
  (fis : list FileInfo) : outcome (list UnixProcess) :=
  match fis with
  | [] => Done results
  | fi :: rest => results <- visit w results fi ;; rangeOver w results rest
  end.

(** The [for { ... }] loop of [processes] on the open directory. *)
Fixpoint readAll (w : World) (d : Dir) (results : list UnixProcess)
  : outcome (option (list UnixProcess) * option error) :=
  match d with
  | ReadErr err =>
      if isEOF err then Done (Some results, None) else Done (None, Some err)
  | ReadBatch fis rest =>
      results <- rangeOver w results fis ;; readAll w rest results
  end.

Definition processes (w : World)
  : outcome (option (list UnixProcess) * option error) :=
  match Open w "/proc" with
  | inr err => Done (None, Some err)
  | inl d => readAll w d []
  end.

Definition Processes := processes.

(** [help] prints the usage and ends the program. *)
Definition help : outcome unit := Exit UNKNOWN.

Definition Command (args : list string) (w : World)
  : outcome (option (list UnixProcess) * string * option error) :=
  (if negb (Nat.eqb (List.length args) 3) then help else Done tt) ;;;
  a1 <- indexArg args 1 ;;
  (if negb (String.eqb a1 "-c") then help else Done tt) ;;;
  command <- indexArg args 2 ;;
  (if String.eqb command "" then help else Done tt) ;;;
  '(procs, err) <- Processes w ;;
  match err with
  | Some e => Done (None, "", Some e)
  | None => Done (procs, command, None)
  end.

(** The [for _, i := range run] loop of [main]. *)
Fixpoint findMatch (run : list UnixProcess) (command : string) : outcome unit :=
  match run with
  | [] => Done tt
  | i :: rest =>
      if String.eqb (Executable i) command && (PPid i =? 1) then Exit OK
      else findMatch rest command
  end.

Definition elems {A : Type} (s : option (list A)) : list A :=
  match s with Some l => l | None => [] end.

(** [main], given [os.Args]; what it prints is left out. *)
Definition main (args : list string) (w : World) : outcome unit :=
  '(run, command, err) <- Command args w ;;
  match err with
  | Some _ => Exit UNKNOWN
  | None => findMatch (elems run) command ;;; Exit CRITICAL
  end.

(** ** The program with what it prints *)

(** One call of a print function, with its operands: the usage text of
    [help], and the three [Printf] calls of [main]. *)
Inductive printed : Type :=
| Usage                                     (* the [Println] lines of [help] *)
| ErrorLine (err : error)                   (* "Error: %v" *)
| ProcessExist (name : string) (pid : Z)    (* "Process exist: %v, pid: %d" *)
| ProcessDoNotExist (command : string).     (* "Process do not exist: %v" *)

(** A run together with what it printed up to its end. *)
Definition traced (A : Type) : Type := list printed * outcome A.

Definition bindT {A B : Type} (m : traced A) (k : A -> traced B) : traced B :=
  match m with
  | (out, Done a) => let (out', r) := k a in ((out ++ out')%list, r)
  | (out, Panic why) => (out, Panic why)
  | (out, Exit code) => (out, Exit code)
  end.

Definition quiet {A : Type} (m : outcome A) : traced A := ([], m).

Definition print (what : printed) : traced unit := ([what], Done tt).

(** [help]: the usage, then [os.Exit(UNKNOWN)]. *)
Definition helpT : traced unit := bindT (print Usage) (fun _ => quiet (Exit UNKNOWN)).

Definition CommandT (args : list string) (w : World)
  : traced (option (list UnixProcess) * string * option error) :=
  bindT (if negb (Nat.eqb (List.length args) 3) then helpT else quiet (Done tt)) (fun _ =>
  bindT (quiet (indexArg args 1)) (fun a1 =>
  bindT (if negb (String.eqb a1 "-c") then helpT else quiet (Done tt)) (fun _ =>
  bindT (quiet (indexArg args 2)) (fun command =>
  bindT (if String.eqb command "" then helpT else quiet (Done tt)) (fun _ =>
  bindT (quiet (Processes w)) (fun r =>
  match r with
  | (_, Some e) => quiet (Done (None, "", Some e))
  | (procs, None) => quiet (Done (procs, command, None))
  end)))))).

(** The [for _, i := range run] loop of [main], with its [Printf]. *)
Fixpoint findMatchT (run : list UnixProcess) (command : string) : traced unit :=
  match run with
  | [] => quiet (Done tt)
  | i :: rest =>
      if String.eqb (Executable i) command && (PPid i =? 1)
      then bindT (print (ProcessExist (Executable i) (Pid i)))
                 (fun _ => quiet (Exit OK))
      else findMatchT rest command
  end.

(** [main], with what it prints. *)
Definition mainT (args : list string) (w : World) : traced unit :=
  bindT (CommandT args w) (fun r =>
  match r with
  | (_, _, Some e) =>
      bindT (print (ErrorLine e)) (fun _ => quiet (Exit UNKNOWN))
  | (run, command, None) =>
      bindT (findMatchT (elems run) command) (fun _ =>
      bindT (print (ProcessDoNotExist command)) (fun _ => quiet (Exit CRITICAL)))
  end).

(** ** Concrete registries *)

(** [Readdir(10)] on a directory that holds [entries]: batches of at most
    ten, then [io.EOF]. *)
Fixpoint listing (fuel : nat) (entries : list FileInfo) : Dir :=
  match entries, fuel with
  | [], _ | _, O => ReadErr EOF
  | _, S f => ReadBatch (firstn 10 entries) (listing f (skipn 10 entries))
  end.

Fixpoint fileText (files : list (string * string)) (path : string)
  : string + error :=
  match files with
  | [] => inr ErrNotExist
  | (name, text) :: rest =>
      if String.eqb name path then inl text else fileText rest path
  end.

(** A registry with the given entries under [/proc] and the given status
    files; every other path does not exist. *)
Definition registry (entries : list FileInfo) (files : list (string * string))
  : World :=
  {| Stat := fun path =>
       if existsb (fun fi => String.eqb ("/proc/" ++ Name fi) path) entries
       then None else Some ErrNotExist;
     ReadFile := fileText files;
     Open := fun path =>
       if String.eqb path "/proc"
       then inl (listing (List.length entries) entries)
       else inr ErrNotExist |}.

(** A registry with one process. *)
Definition oneProcess (pid : Z) (text : string) : World :=
  registry [mkFileInfo (Strconv.FormatInt pid) true] [(statPath pid, text)].

(** * The vocabulary of the statements *)

(** ** Texts *)

(** No byte of [s] is [c]. *)
Fixpoint without (c : ascii) (s : string) : bool :=
  match s with
  | EmptyString => true
  | String x rest => negb (Ascii.eqb x c) && without c rest
  end.

(** Every byte of [s] is a decimal digit. *)
Fixpoint allDigits (s : string) : bool :=
  match s with
  | EmptyString => true
  | String c rest => (48 <=? byteVal c) && (byteVal c <=? 57) && allDigits rest
  end.

(** Every byte of [s] is below [utf8.RuneSelf]. *)
Fixpoint allAscii (s : string) : bool :=
  match s with
  | EmptyString => true
  | String c rest => (byteVal c <? 128) && allAscii rest
  end.

(** The bytes of [s] as runes, for a string of ASCII bytes. *)
Definition asRunes (s : string) : list rune :=
  map byteVal (list_ascii_of_string s).

(** The scan of digits stops at the end of the input or at a rune that
    is no digit. *)
Definition stops (rest : list rune) : bool :=
  match rest with
  | [] => true
  | r :: _ => negb (Fmt.isDigit r)
  end.

(** A rune that can start what [%d] prints: a digit or the minus sign. *)
Definition startsNumeral (r : rune) : bool := Fmt.isDigit r || (r =? 45).

(** The value of the digits [d] read from left to right into [acc]. *)
Fixpoint uintVal (d : Decimal.uint) (acc : Z) : Z :=
  match d with
  | Decimal.Nil => acc
  | Decimal.D0 l => uintVal l (10 * acc)
  | Decimal.D1 l => uintVal l (10 * acc + 1)
  | Decimal.D2 l => uintVal l (10 * acc + 2)
  | Decimal.D3 l => uintVal l (10 * acc + 3)
  | Decimal.D4 l => uintVal l (10 * acc + 4)
  | Decimal.D5 l => uintVal l (10 * acc + 5)
  | Decimal.D6 l => uintVal l (10 * acc + 6)
  | Decimal.D7 l => uintVal l (10 * acc + 7)
  | Decimal.D8 l => uintVal l (10 * acc + 8)
  | Decimal.D9 l => uintVal l (10 * acc + 9)
  end.

(** A Go [int]: 64 bits. *)
Definition isInt (z : Z) : Prop := - 2 ^ 63 <= z < 2 ^ 63.

(** ** Directories and snapshots *)

(** All entries a directory delivers before [Readdir] reports an error. *)
Fixpoint entries (d : Dir) : list FileInfo :=
  match d with
  | ReadErr _ => []
  | ReadBatch fis rest => (fis ++ entries rest)%list
  end.

(** The error that ends the listing of a directory. *)
Fixpoint lastError (d : Dir) : error :=
  match d with
  | ReadErr e => e
  | ReadBatch _ rest => lastError rest
  end.

(** [p] is the record of registry entry [fi]: a directory with a decimal
    name whose status record parsed without error. *)
Definition recordOf (w : World) (fi : FileInfo) (p : UnixProcess) : Prop :=
  IsDir fi = true
  /\ Name fi <> ""
  /\ allDigits (Name fi) = true
  /\ Strconv.ParseInt (Name fi) 10 0 = (pid p, None)
  /\ newUnixProcess (pid p) w = Done (p, None).

(** The entries of the batches [bs], visited in order. *)
Fixpoint rangeBatches (w : World) (rs : list UnixProcess)
  (bs : list (list FileInfo)) : outcome (list UnixProcess) :=
  match bs with
  | [] => Done rs
  | fis :: rest => rs <- rangeOver w rs fis ;; rangeBatches w rs rest
  end.

(** ** Status records *)

(** [q] holds everything the status text [data] says: [data] is
    [pre ++ name ++ ")" ++ sep ++ fields], where [name] has no closing
    parenthesis, and state, parent, group and session are the four
    operands scanned from [fields]; when [data] has an opening
    parenthesis, [pre] ends with the first one, so that [name] is the text
    between the first opening parenthesis and the next closing one. *)
Definition populatedFrom (data : string) (q : UnixProcess) : Prop :=
  exists (pre name fields : string) (sep : ascii) (c a b d : Z),
    data = (pre ++ name ++ String ")" (String sep fields))%string
    /\ without ")" name = true
    /\ (without "(" data = false ->
        exists before, pre = (before ++ "(")%string /\ without "(" before = true)
    /\ Fmt.Sscanf_c_d_d_d fields = ([c; a; b; d], None)
    /\ q = mkUnixProcess (pid q) a c b d name.

(** The state code as one byte of text. *)
Definition stateByte (p : UnixProcess) : ascii := ascii_of_N (Z.to_N (state p)).

(** The fields after the name: state, parent, group and session,
    separated by single spaces and followed by [more]. *)
Definition fieldsText (p : UnixProcess) (more : string) : string :=
  String (stateByte p)
    (" " ++ Strconv.FormatInt (ppid p) ++ " " ++ Strconv.FormatInt (pgrp p)
         ++ " " ++ Strconv.FormatInt (sid p) ++ more).

(** The status record of the documented format that carries the fields of
    [p]: the identifier, the name in parentheses, then the fields.  It is
    written from the description of the format; the program itself never
    prints a record. *)
Definition statRecord (p : UnixProcess) (more : string) : string :=
  Strconv.FormatInt (pid p) ++ " (" ++ binary p ++ ") " ++ fieldsText p more.

(** Further fields are absent or start with a space. *)
Definition furtherFields (more : string) : Prop :=
  more = "" \/ exists t, more = String " " t.

(** ** Concrete registries and records *)

(** The registry of the scenario: entries [1], [2], [self], [42abc] and
    [300]; [1], [2] and [300] are process directories with valid status
    records, the other two are directories or not as the flags say. *)
Definition scenario (selfIsDir junkIsDir : bool) : World :=
  registry
    [mkFileInfo "1" true; mkFileInfo "2" true; mkFileInfo "self" selfIsDir;
     mkFileInfo "42abc" junkIsDir; mkFileInfo "300" true]
    [("/proc/1/stat", "1 (init) S 0 1 1 0 -1 4194560");
     ("/proc/2/stat", "2 (kthreadd) S 0 0 0 0 -1 2129984");
     ("/proc/300/stat", "300 (sshd) S 1 300 300 0 -1 4194560")].

Definition initRecord : UnixProcess :=
  mkUnixProcess 1 0 (byteVal "S") 1 1 "init".

Definition kthreaddRecord : UnixProcess :=
  mkUnixProcess 2 0 (byteVal "S") 0 0 "kthreadd".

Definition sshdRecord : UnixProcess :=
  mkUnixProcess 300 1 (byteVal "S") 300 300 "sshd".

(** A registry whose second [Readdir] call fails. *)
Definition failingRegistry : World :=
  {| Stat := fun _ => None;
     ReadFile := fileText [("/proc/1/stat", "1 (init) S 0 1 1 0 -1")];
     Open := fun _ => inl (ReadBatch [mkFileInfo "1" true] (ReadErr ErrIO)) |}.

(** A registry that cannot be opened. *)
Definition closedRegistry : World :=
  {| Stat := fun _ => Some ErrPermission;
     ReadFile := fun _ => inr ErrPermission;
     Open := fun _ => inr ErrPermission |}.

(** The record of ["7 () S 1 7 7"]: its name is empty. *)
Definition emptyNameRecord : UnixProcess :=
  mkUnixProcess 7 1 (byteVal "S") 7 7 "".

(** The record of a process named [a)b]. *)
Definition parenRecord : UnixProcess :=
  mkUnixProcess 5 1 (byteVal "S") 5 5 "a)b".

(** ** Names of registry entries *)

(** The number the decimal digits of [s] denote, read into [acc]. *)
Fixpoint decimalValue (s : string) (acc : Z) : Z :=
  match s with
  | EmptyString => acc
  | String c rest => decimalValue rest (10 * acc + (byteVal c - 48))
  end.

(** The process number of a registry entry, if it has one: the entry is a
    directory and its name is a decimal numeral that fits an [int]. *)
Definition processNumber (fi : FileInfo) : option Z :=
  if IsDir fi && allDigits (Name fi) && (decimalValue (Name fi) 0 <? 2 ^ 63)
  then Some (decimalValue (Name fi) 0)
  else None.

(** What [visit] does with an entry that has the process number [n]. *)
Definition collect (w : World) (rs : list UnixProcess) (n : Z)
  : outcome (list UnixProcess) :=
  '(p, err) <- newUnixProcess n w ;;
  match err with
  | Some _ => Done rs
  | None => Done (rs ++ [p])%list
  end.

(** [l1] is [l2] with some elements left out, the order kept. *)
Inductive subseq {A : Type} : list A -> list A -> Prop :=
| subseq_nil : subseq [] []
| subseq_skip (x : A) (l1 l2 : list A) : subseq l1 l2 -> subseq l1 (x :: l2)
| subseq_take (x : A) (l1 l2 : list A) : subseq l1 l2 -> subseq (x :: l1) (x :: l2).

(** The first record of [run] with the executable name [command] and the
    parent 1, as [main] looks for it. *)
Fixpoint firstMatch (run : list UnixProcess) (command : string)
  : option UnixProcess :=
  match run with
  | [] => None
  | i :: rest =>
      if String.eqb (binary i) command && (ppid i =? 1) then Some i
      else firstMatch rest command
  end.

(** [os.Args] is a valid command line for the target [target]. *)
Definition validArgs (args : list string) (target : string) : Prop :=
  exists prog, args = [prog; "-c"; target] /\ target <> "".

(** A registry in which process 7 is listed but its record cannot be
    read any more. *)
Definition vanishedRegistry : World :=
  registry [mkFileInfo "1" true; mkFileInfo "7" true]
           [("/proc/1/stat", "1 (init) S 0 1 1 0 -1")].

(** * Facts about strings and slices *)

Section StringFacts.

Lemma append_assoc (a b c : string) : ((a ++ b) ++ c)%string = (a ++ b ++ c)%string.
Proof. induction a as [|x a IH]; simpl; [reflexivity | now rewrite IH]. Qed.

Lemma length_app (a b : string) :
  String.length (a ++ b) = (String.length a + String.length b)%nat.
Proof. induction a as [|x a IH]; simpl; [reflexivity | now rewrite IH]. Qed.

Lemma len_app (a b : string) : len (a ++ b) = len a + len b.
Proof. unfold len. rewrite length_app. lia. Qed.

Lemma len_nonneg (s : string) : 0 <= len s.
Proof. unfold len. lia. Qed.

Lemma len_String (c : ascii) (s : string) : len (String c s) = len s + 1.
Proof. unfold len. simpl String.length. lia. Qed.

Lemma substring_all (s : string) : substring 0 (String.length s) s = s.
Proof. induction s as [|x s IH]; simpl; [reflexivity | now rewrite IH]. Qed.

Lemma substring_app_take (a b : string) :
  substring 0 (String.length a) (a ++ b) = a.
Proof.
  induction a as [|x a IH]; simpl.
  - destruct b; reflexivity.
  - now rewrite IH.
Qed.

Lemma substring_app_skip (a b : string) (n m : nat) :
  substring (String.length a + n) m (a ++ b) = substring n m b.
Proof. induction a as [|x a IH]; simpl; [reflexivity | exact IH]. Qed.

(** [(a ++ b)[len(a):]] is [b]. *)
Lemma sliceFrom_app (a b : string) : sliceFrom (a ++ b) (len a) = Done b.
Proof.
  unfold sliceFrom, slice. rewrite len_app.
  pose proof (len_nonneg a). pose proof (len_nonneg b).
  replace ((0 <=? len a) && (len a <=? len a + len b)
           && (len a + len b <=? len a + len b)) with true
    by (symmetry; rewrite !andb_true_iff, !Z.leb_le; lia).
  f_equal. unfold len.
  replace (Z.to_nat (Z.of_nat (String.length a))) with (String.length a + 0)%nat by lia.
  replace (Z.to_nat _) with (String.length b) by lia.
  rewrite substring_app_skip. apply substring_all.
Qed.

(** [(a ++ b ++ c)[len(a) : len(a)+len(b)]] is [b]. *)
Lemma slice_app (a b c : string) :
  slice (a ++ b ++ c) (len a) (len a + len b) = Done b.
Proof.
  unfold slice. rewrite !len_app.
  pose proof (len_nonneg a). pose proof (len_nonneg b). pose proof (len_nonneg c).
  replace ((0 <=? len a) && (len a <=? len a + len b)
           && (len a + len b <=? len a + (len b + len c))) with true
    by (symmetry; rewrite !andb_true_iff, !Z.leb_le; lia).
  f_equal. unfold len.
  replace (Z.to_nat (Z.of_nat (String.length a))) with (String.length a + 0)%nat by lia.
  replace (Z.to_nat _) with (String.length b) by lia.
  rewrite substring_app_skip. apply substring_app_take.
Qed.

(** A slice whose upper bound is below its lower bound panics. *)
Lemma slice_inverted (s : string) (lo hi : Z) :
  hi < lo -> slice s lo hi = Panic SliceBounds.
Proof.
  intros H. unfold slice.
  replace (lo <=? hi) with false by (symmetry; apply Z.leb_gt; lia).
  now rewrite andb_false_r.
Qed.

Lemma IndexByte_bounds (s : string) (c : ascii) :
  -1 <= Strings.IndexByte s c < len s \/ (s = EmptyString /\ Strings.IndexByte s c = -1).
Proof.
  induction s as [|x s IH].
  - right. split; reflexivity.
  - left. simpl Strings.IndexByte. rewrite len_String.
    pose proof (len_nonneg s).
    destruct (Ascii.eqb x c); [lia|].
    destruct (Z.ltb_spec (Strings.IndexByte s c) 0); [lia|].
    destruct IH as [IH | [_ IH]]; lia.
Qed.

Lemma IndexByte_lower (s : string) (c : ascii) : -1 <= Strings.IndexByte s c.
Proof. destruct (IndexByte_bounds s c) as [H | [_ H]]; lia. Qed.

Lemma IndexByte_without (s : string) (c : ascii) :
  Strings.IndexByte s c = -1 <-> without c s = true.
Proof.
  induction s as [|x s IH]; simpl.
  - tauto.
  - pose proof (IndexByte_lower s c).
    destruct (Ascii.eqb x c); simpl.
    + split; [lia | discriminate].
    + destruct (Z.ltb_spec (Strings.IndexByte s c) 0).
      * rewrite <- IH. split; intros; lia.
      * rewrite <- IH. split; intros; lia.
Qed.

(** The first [c] of [a ++ c :: b] is at [len(a)] when [a] has none. *)
Lemma IndexByte_app_at (a b : string) (c : ascii) :
  without c a = true -> Strings.IndexByte (a ++ String c b) c = len a.
Proof.
  induction a as [|x a IH]; simpl; intros H.
  - now rewrite Ascii.eqb_refl.
  - apply andb_true_iff in H as [Hx Ha].
    apply negb_true_iff in Hx. rewrite Hx, (IH Ha).
    pose proof (len_nonneg a).
    destruct (Z.ltb_spec (len a) 0); [lia|].
    rewrite len_String. reflexivity.
Qed.

Lemma IndexByte_absent_app (a b : string) (c : ascii) :
  without c a = true -> without c b = true -> Strings.IndexByte (a ++ b) c = -1.
Proof.
  intros Ha Hb. apply IndexByte_without.
  induction a as [|x a IH]; simpl in *; [exact Hb|].
  apply andb_true_iff in Ha as [Hx Ha]. now rewrite Hx, IH.
Qed.

End StringFacts.

(** * The shape of a status record and what [Refresh] makes of it *)

Section RefreshFacts.

Variable w : World.

(** [Refresh] never changes the identifier. *)
Lemma store_pid (p : UnixProcess) (vals : list Z) : pid (store p vals) = pid p.
Proof.
  destruct vals as [|c [|a [|b [|d rest]]]]; reflexivity.
Qed.

Lemma Refresh_pid (p q : UnixProcess) (err : option error) :
  Refresh w p = Done (q, err) -> pid q = pid p.
Proof.
  unfold Refresh. destruct (ReadFile w (statPath (pid p))) as [data|e].
  - destruct (sliceFrom data _) as [tail| |]; simpl; try discriminate.
    destruct (slice data _ _) as [bin| |]; simpl; try discriminate.
    destruct (sliceFrom data _) as [rest| |]; simpl; try discriminate.
    destruct (Fmt.Sscanf_c_d_d_d rest) as [vals e].
    intros H. inversion H. now rewrite store_pid.
  - intros H. now inversion H.
Qed.

(** A record [pre ( name ) sep fields] in which [pre] has no opening and
    [name] no closing parenthesis: the name is [name] and the scan runs on
    [fields]. *)
Lemma Refresh_shape (p : UnixProcess) (pre name fields : string) (sep : ascii) :
  ReadFile w (statPath (pid p))
    = inl (pre ++ String "(" (name ++ String ")" (String sep fields))) ->
  without "(" pre = true ->
  without ")" name = true ->
  Refresh w p
    = Done (store (set_binary p name) (fst (Fmt.Sscanf_c_d_d_d fields)),
            snd (Fmt.Sscanf_c_d_d_d fields)).
Proof.
  intros Hread Hpre Hname. unfold Refresh. rewrite Hread.
  unfold Strings.IndexRune.
  rewrite (IndexByte_app_at pre _ "(" Hpre).
  set (rest := String ")" (String sep fields)).
  change (pre ++ String "(" (name ++ rest))%string
    with (pre ++ ("(" ++ (name ++ rest)))%string.
  rewrite <- append_assoc.
  replace (len pre + 1) with (len (pre ++ "(")) by (rewrite len_app; reflexivity).
  rewrite sliceFrom_app. simpl bind.
  replace (Strings.IndexByte (name ++ rest) ")") with (len name)
    by (symmetry; apply IndexByte_app_at, Hname).
  rewrite slice_app. simpl bind.
  replace ((pre ++ "(") ++ name ++ rest)%string
    with ((((pre ++ "(") ++ name) ++ ")" ++ String sep "") ++ fields)%string
    by (unfold rest; rewrite !append_assoc; reflexivity).
  replace (len (pre ++ "(") + len name + 2)
    with (len (((pre ++ "(") ++ name) ++ ")" ++ String sep ""))
    by (rewrite !len_app; reflexivity).
  rewrite sliceFrom_app. simpl bind.
  destruct (Fmt.Sscanf_c_d_d_d fields) as [vals err]. reflexivity.
Qed.

Lemma store_binary (p : UnixProcess) (vals : list Z) :
  binary (store p vals) = binary p.
Proof.
  destruct vals as [|c [|a [|b [|d rest]]]]; reflexivity.
Qed.

(** X5. The name ends at the first closing parenthesis after the opening
    one: of a name [n1 ++ ")" ++ n2] only [n1] is stored. *)
Lemma name_cut_at_first_closing (p : UnixProcess) (pre n1 n2 rest : string) :
  ReadFile w (statPath (pid p))
    = inl (pre ++ String "(" ((n1 ++ String ")" n2) ++ String ")" rest)) ->
  without "(" pre = true ->
  without ")" n1 = true ->
  exists q err, Refresh w p = Done (q, err) /\ binary q = n1.
Proof.
  intros Hread Hpre Hn1.
  rewrite append_assoc in Hread. simpl append in Hread.
  destruct (n2 ++ String ")" rest)%string as [|sep fields] eqn:E.
  { destruct n2; discriminate. }
  rewrite (Refresh_shape p pre n1 fields sep Hread Hpre Hn1).
  eexists. eexists. split; [reflexivity|].
  now rewrite store_binary.
Qed.

End RefreshFacts.

Lemma name_cut_at_first_closing_witness :
  exists q err,
    Refresh (oneProcess 7 "7 (a(b)c) S 1 7 7") (mkUnixProcess 7 0 0 0 0 "")
      = Done (q, err)
    /\ binary q = "a(b".
Proof.
  apply (name_cut_at_first_closing (oneProcess 7 "7 (a(b)c) S 1 7 7")
           (mkUnixProcess 7 0 0 0 0 "") "7 " "a(b" "c" " S 1 7 7");
    reflexivity.
Defined.

(** * The status parser on concrete records *)

(** C2. The status text ["300 (sshd) S 1 300 300 0 -1 ..."], read for
    identifier 300, is parsed into the record with id 300, executable name
    ["sshd"], parent identifier 1 and state ['S'] (group and session are
    300); the fields after the session are ignored, whatever they are. *)
Theorem sshd_status_record (w : World) (more : string) :
  ReadFile w "/proc/300/stat" = inl ("300 (sshd) S 1 300 300 0 -1 " ++ more) ->
  newUnixProcess 300 w
    = Done (mkUnixProcess 300 1 (byteVal "S") 300 300 "sshd", None)
  /\ (Stat w "/proc/300" = None ->
      FindProcess 300 w
        = Done (Some (mkUnixProcess 300 1 (byteVal "S") 300 300 "sshd"), None)).
Proof.
  intros Hread.
  assert (Hnew : newUnixProcess 300 w
                 = Done (mkUnixProcess 300 1 (byteVal "S") 300 300 "sshd", None)).
  { unfold newUnixProcess.
    rewrite (Refresh_shape w _ "300 " "sshd" ("S 1 300 300 0 -1 " ++ more) " ");
      [ | exact Hread | reflexivity | reflexivity ].
    vm_compute. reflexivity. }
  split; [exact Hnew|].
  intros Hstat. unfold FindProcess, findProcess.
  change (procDir 300) with "/proc/300". rewrite Hstat, Hnew. reflexivity.
Qed.

Lemma sshd_status_record_witness :
  newUnixProcess 300 (oneProcess 300 "300 (sshd) S 1 300 300 0 -1 ...")
    = Done (mkUnixProcess 300 1 (byteVal "S") 300 300 "sshd", None)
  /\ FindProcess 300 (oneProcess 300 "300 (sshd) S 1 300 300 0 -1 ...")
     = Done (Some (mkUnixProcess 300 1 (byteVal "S") 300 300 "sshd"), None).
Proof.
  destruct (sshd_status_record
              (oneProcess 300 "300 (sshd) S 1 300 300 0 -1 ...") "..." eq_refl)
    as [Hparse Hlookup].
  split; [exact Hparse | apply Hlookup; reflexivity].
Defined.

(** C1. A record whose executable name is [a(b)c]: the name the parser
    stores is [a(b], cut at the first closing parenthesis after the
    opening one, and the scan of the fields starts inside the name and
    fails. *)
Theorem name_with_parentheses_is_cut :
  newUnixProcess 7 (oneProcess 7 "7 (a(b)c) S 1 7 7 0 -1")
    = Done (mkUnixProcess 7 0 (byteVal ")") 0 0 "a(b",
            Some (ErrScan "expected integer")).
Proof. vm_compute. reflexivity. Qed.

(** * Lookup *)

(** C3. When no registry entry exists for an identifier ([os.Stat] answers
    "does not exist"), lookup returns no record and no error. *)
Theorem lookup_of_absent_process (w : World) (pid : Z) (e : error) :
  Stat w (procDir pid) = Some e ->
  IsNotExist e = true ->
  FindProcess pid w = Done (None, None).
Proof.
  intros Hstat Hne. unfold FindProcess, findProcess.
  rewrite Hstat, Hne. reflexivity.
Qed.

Lemma lookup_of_absent_process_witness :
  FindProcess 301 (oneProcess 300 "300 (sshd) S 1 300 300 0 -1") = Done (None, None).
Proof.
  apply (lookup_of_absent_process _ 301 ErrNotExist); reflexivity.
Defined.

(** Any other failure of the existence probe is returned as the error. *)
Lemma lookup_probe_failure (w : World) (pid : Z) (e : error) :
  Stat w (procDir pid) = Some e ->
  IsNotExist e = false ->
  FindProcess pid w = Done (None, Some e).
Proof.
  intros Hstat Hne. unfold FindProcess, findProcess.
  rewrite Hstat, Hne. reflexivity.
Qed.

(** A parse error of a process that exists is returned by lookup. *)
Lemma lookup_surfaces_parse_error (w : World) (pid : Z) (p : UnixProcess) (e : error) :
  Stat w (procDir pid) = None ->
  newUnixProcess pid w = Done (p, Some e) ->
  FindProcess pid w = Done (Some p, Some e).
Proof.
  intros Hstat Hnew. unfold FindProcess, findProcess.
  rewrite Hstat, Hnew. reflexivity.
Qed.

(** * Malformed records *)

Section Malformed.

Variable w : World.

Lemma without_substring (c : ascii) (s : string) (n m : nat) :
  without c s = true -> without c (substring n m s) = true.
Proof.
  revert n m. induction s as [|x s IH]; intros n m H.
  - destruct n, m; reflexivity.
  - simpl in H. apply andb_true_iff in H as [Hx Hs].
    destruct n as [|n].
    + destruct m as [|m]; [reflexivity|].
      simpl. now rewrite Hx, IH.
    + simpl. now apply IH.
Qed.

(** X4. A record without a closing parenthesis makes [Refresh] panic: the
    end index of the name is below its start index. *)
Lemma Refresh_without_closing (p : UnixProcess) (data : string) :
  ReadFile w (statPath (pid p)) = inl data ->
  without ")" data = true ->
  Refresh w p = Panic SliceBounds.
Proof.
  intros Hread Hno. unfold Refresh. rewrite Hread.
  destruct (sliceFrom data _) as [tail| |] eqn:Htail; simpl; try reflexivity.
  - assert (Hend : Strings.IndexRune tail ")" = -1).
    { apply IndexByte_without. unfold sliceFrom, slice in Htail.
      destruct (_ && _) in Htail; [|discriminate].
      inversion Htail. now apply without_substring. }
    rewrite Hend, slice_inverted by lia. reflexivity.
  - unfold sliceFrom, slice in Htail.
    destruct (_ && _) in Htail; [discriminate|]. now inversion Htail.
  - unfold sliceFrom, slice in Htail.
    destruct (_ && _) in Htail; discriminate.
Qed.

(** A record that stops right after the closing parenthesis panics too. *)
Lemma Refresh_nothing_after_name :
  newUnixProcess 300 (oneProcess 300 "300 (sshd)") = Panic SliceBounds.
Proof. vm_compute. reflexivity. Qed.

End Malformed.

Lemma Refresh_without_closing_witness :
  Refresh (oneProcess 300 "300 (sshd S 1 300 300") (mkUnixProcess 300 0 0 0 0 "")
    = Panic SliceBounds.
Proof.
  apply (Refresh_without_closing (oneProcess 300 "300 (sshd S 1 300 300")
           (mkUnixProcess 300 0 0 0 0 "") "300 (sshd S 1 300 300");
    reflexivity.
Defined.

(** C4. Records without delimiters are not reported as errors.  For the
    readable record ["300 sshd S 1 300 300"] the parser, single lookup and
    bulk enumeration all end in a slice-bounds panic; for
    ["300 sshd) S 1 300 300"], which lacks only the opening parenthesis,
    parsing succeeds with the name ["300 sshd"].  A non-numeric parent
    field is an error, skipped by enumeration and returned by lookup. *)
Theorem missing_delimiters_are_not_errors :
  newUnixProcess 300 (oneProcess 300 "300 sshd S 1 300 300") = Panic SliceBounds
  /\ FindProcess 300 (oneProcess 300 "300 sshd S 1 300 300") = Panic SliceBounds
  /\ Processes (oneProcess 300 "300 sshd S 1 300 300") = Panic SliceBounds
  /\ newUnixProcess 300 (oneProcess 300 "300 sshd) S 1 300 300")
     = Done (mkUnixProcess 300 1 (byteVal "S") 300 300 "300 sshd", None)
  /\ FindProcess 300 (oneProcess 300 "300 (sshd) S x 300 300")
     = Done (Some (mkUnixProcess 300 0 (byteVal "S") 0 0 "sshd"),
             Some (ErrScan "expected integer"))
  /\ Processes (oneProcess 300 "300 (sshd) S x 300 300") = Done (Some [], None).
Proof. repeat split; vm_compute; reflexivity. Qed.

(** * Decimal names *)

Section DecimalNames.

Lemma digitVal_decimal (c : ascii) (d : Z) :
  Strconv.digitVal c = Some d -> d < 10 ->
  (48 <=? byteVal c) && (byteVal c <=? 57) = true.
Proof.
  unfold Strconv.digitVal.
  destruct ((48 <=? byteVal c) && (byteVal c <=? 57)); [reflexivity|].
  destruct ((97 <=? Strconv.lower (byteVal c)) && (Strconv.lower (byteVal c) <=? 122)) eqn:E;
    [|discriminate].
  intros H Hd. inversion H. apply andb_true_iff in E as [E _].
  apply Z.leb_le in E. lia.
Qed.

Lemma parseDigits_decimal (cutoff maxVal : Z) (s : string) (n v : Z) :
  Strconv.parseDigits 10 cutoff maxVal s n = (v, None) -> allDigits s = true.
Proof.
  revert n. induction s as [|c s IH]; intros n; simpl; [reflexivity|].
  destruct (Strconv.digitVal c) as [d|] eqn:Hd; [|discriminate].
  destruct (Z.leb_spec 10 d) as [|Hlt]; [discriminate|].
  destruct (cutoff <=? n); [discriminate|].
  destruct (_ || _); [discriminate|].
  intros Hrest. rewrite (digitVal_decimal c d Hd Hlt). simpl. eauto.
Qed.

Lemma parseDigits_range (base cutoff maxVal : Z) (s : string) (n un : Z) :
  Strconv.parseDigits base cutoff maxVal s n = (un, Some ErrRange) -> un = maxVal.
Proof.
  revert n. induction s as [|c s IH]; intros n; simpl; [discriminate|].
  destruct (Strconv.digitVal c) as [d|]; [|discriminate].
  destruct (base <=? d); [discriminate|].
  destruct (cutoff <=? n); [intros H; now inversion H|].
  destruct (_ || _); [intros H; now inversion H|].
  apply IH.
Qed.

(** A name that starts with a digit and that [ParseInt] accepts in base
    ten is made of decimal digits only. *)
Lemma ParseInt_decimal (name : string) (c : ascii) (v : Z) :
  index0 name = Done c ->
  (byteVal c <? 48) || (57 <? byteVal c) = false ->
  Strconv.ParseInt name 10 0 = (v, None) ->
  allDigits name = true.
Proof.
  destruct name as [|c0 rest]; [discriminate|].
  intros Hc Hdig. inversion Hc; subst c0.
  assert (Hsign : Ascii.eqb c "+" || Ascii.eqb c "-" = false).
  { apply orb_false_iff in Hdig as [H1 H2].
    apply Z.ltb_ge in H1. apply Z.ltb_ge in H2.
    destruct (Ascii.eqb_spec c "+") as [-> | _];
      [exfalso; vm_compute in H1; now apply H1|].
    destruct (Ascii.eqb_spec c "-") as [-> | _];
      [exfalso; vm_compute in H1; now apply H1|].
    reflexivity. }
  unfold Strconv.ParseInt. rewrite Hsign.
  apply orb_false_iff in Hsign as [_ Hneg]. rewrite Hneg.
  unfold Strconv.ParseUint.
  destruct (Strconv.parseDigits _ _ _ _ _) as [un [e|]] eqn:Hp.
  - destruct e; try discriminate.
    apply parseDigits_range in Hp. subst un. vm_compute. discriminate.
  - intros _. eapply parseDigits_decimal. exact Hp.
Qed.

End DecimalNames.

(** * The snapshot *)

Section Snapshot.

Variable w : World.

Lemma newUnixProcess_pid (n : Z) (p : UnixProcess) (err : option error) :
  newUnixProcess n w = Done (p, err) -> pid p = n.
Proof. intros H. apply Refresh_pid in H. exact H. Qed.

Lemma visit_cases (rs rs' : list UnixProcess) (fi : FileInfo) :
  visit w rs fi = Done rs' ->
  rs' = rs \/ exists p, rs' = (rs ++ [p])%list /\ recordOf w fi p.
Proof.
  unfold visit. destruct (IsDir fi) eqn:Hdir; simpl.
  2:{ intros H. inversion H. now left. }
  destruct (index0 (Name fi)) as [c| |] eqn:Hc; simpl; try discriminate.
  destruct ((byteVal c <? 48) || (57 <? byteVal c)) eqn:Hdig.
  { intros H. inversion H. now left. }
  destruct (Strconv.ParseInt (Name fi) 10 0) as [n [e|]] eqn:Hparse.
  { intros H. inversion H. now left. }
  destruct (newUnixProcess n w) as [[p [e|]]| |] eqn:Hnew; simpl; try discriminate.
  { intros H. inversion H. now left. }
  intros H. inversion H. right. exists p. split; [reflexivity|].
  pose proof (newUnixProcess_pid _ _ _ Hnew) as Hpid.
  unfold recordOf. rewrite Hpid. repeat split; try assumption.
  - intros E. rewrite E in Hc. discriminate.
  - eapply ParseInt_decimal; eassumption.
Qed.

Lemma rangeOver_cases (fis : list FileInfo) (rs rs' : list UnixProcess) :
  rangeOver w rs fis = Done rs' ->
  forall p, In p rs' -> In p rs \/ exists fi, In fi fis /\ recordOf w fi p.
Proof.
  revert rs. induction fis as [|fi fis IH]; intros rs; simpl.
  - intros H p Hp. inversion H; subst. now left.
  - destruct (visit w rs fi) as [rs1| |] eqn:Hv; simpl; try discriminate.
    intros H p Hp. destruct (IH _ H p Hp) as [Hin | (fi' & Hin & Hrec)].
    + destruct (visit_cases _ _ _ Hv) as [-> | (q & -> & Hq)]; [now left|].
      apply in_app_or in Hin as [Hin | [<- | []]]; [now left|].
      right. exists fi. split; [now left | exact Hq].
    + right. exists fi'. split; [now right | exact Hrec].
Qed.

Lemma readAll_cases (d : Dir) (rs rs' : list UnixProcess) :
  readAll w d rs = Done (Some rs', None) ->
  forall p, In p rs' -> In p rs \/ exists fi, In fi (entries d) /\ recordOf w fi p.
Proof.
  revert rs. induction d as [e | fis rest IH]; intros rs; simpl.
  - destruct (isEOF e); intros H; inversion H; subst. intros p Hp. now left.
  - destruct (rangeOver w rs fis) as [rs1| |] eqn:Hr; simpl; try discriminate.
    intros H p Hp. destruct (IH _ H p Hp) as [Hin | (fi & Hin & Hrec)].
    + destruct (rangeOver_cases _ _ _ Hr p Hin) as [Hin' | (fi & Hfi & Hrec)];
        [now left|].
      right. exists fi. split; [apply in_or_app; now left | exact Hrec].
    + right. exists fi. split; [apply in_or_app; now right | exact Hrec].
Qed.

(** An entry that is skipped leaves the collection as it is: an entry that
    is no directory, a name that does not start with a digit or is no
    number, and a process whose record cannot be read or scanned. *)
Lemma visit_skips_non_directory (rs : list UnixProcess) (fi : FileInfo) :
  IsDir fi = false -> visit w rs fi = Done rs.
Proof. intros H. unfold visit. now rewrite H. Qed.

Lemma visit_skips_failure (rs : list UnixProcess) (fi : FileInfo)
  (c : ascii) (n : Z) (p : UnixProcess) (e : error) :
  index0 (Name fi) = Done c ->
  Strconv.ParseInt (Name fi) 10 0 = (n, None) ->
  newUnixProcess n w = Done (p, Some e) ->
  visit w rs fi = Done rs.
Proof.
  intros Hc Hparse Hnew. unfold visit.
  destruct (IsDir fi); [simpl | reflexivity].
  rewrite Hc. simpl. destruct (_ || _); [reflexivity|].
  rewrite Hparse, Hnew. reflexivity.
Qed.

(** A record that cannot be read (the process vanished) is an error of
    [newUnixProcess], never a panic. *)
Lemma vanished_is_error (n : Z) (e : error) :
  ReadFile w (statPath n) = inr e ->
  newUnixProcess n w = Done (mkUnixProcess n 0 0 0 0 "", Some e).
Proof. intros H. unfold newUnixProcess, Refresh. simpl pid. now rewrite H. Qed.

(** The loop returns an error only for the error of a [Readdir] call, and
    then without a collection. *)
Lemma readAll_error (d : Dir) (rs : list UnixProcess)
  (res : option (list UnixProcess)) (e : error) :
  readAll w d rs = Done (res, Some e) ->
  res = None /\ e = lastError d /\ isEOF e = false.
Proof.
  revert rs. induction d as [e0 | fis rest IH]; intros rs; simpl.
  - destruct (isEOF e0) eqn:E; intros H; inversion H; subst. auto.
  - destruct (rangeOver w rs fis) as [rs1| |]; simpl; try discriminate.
    apply IH.
Qed.

Lemma readAll_batches (bs : list (list FileInfo)) (d : Dir) (rs : list UnixProcess) :
  readAll w (fold_right ReadBatch d bs) rs
  = (rs' <- rangeBatches w rs bs ;; readAll w d rs').
Proof.
  revert rs. induction bs as [|fis bs IH]; intros rs; simpl; [reflexivity|].
  destruct (rangeOver w rs fis); simpl; auto.
Qed.

(** The fuel [listing] is given is enough: it delivers every entry. *)
Lemma listing_entries (fuel : nat) (l : list FileInfo) :
  (List.length l <= fuel)%nat ->
  entries (listing fuel l) = l /\ lastError (listing fuel l) = EOF.
Proof.
  revert l. induction fuel as [|f IH]; intros l Hlen.
  - destruct l; [split; reflexivity | simpl in Hlen; lia].
  - destruct l as [|fi l]; [split; reflexivity|].
    cbn [listing entries lastError].
    destruct (IH (skipn 10 (fi :: l))) as [He Hl].
    + rewrite length_skipn. simpl in *. lia.
    + rewrite He, Hl. split; [apply firstn_skipn | reflexivity].
Qed.

End Snapshot.

(** * Properties of the snapshot *)

(** C7. Every record of a snapshot belongs to a registry entry that is a
    directory and whose name is made of decimal digits only (the record's
    identifier is the number the name denotes); and on the registry with
    entries 1, 2, self, 42abc and 300 the snapshot is exactly the three
    records of 1, 2 and 300. *)
Theorem snapshot_only_numeric_directories :
  (forall (w : World) (d : Dir) (rs : list UnixProcess) (p : UnixProcess),
      Open w "/proc" = inl d ->
      Processes w = Done (Some rs, None) ->
      In p rs ->
      exists fi, In fi (entries d)
                 /\ IsDir fi = true
                 /\ Name fi <> ""
                 /\ allDigits (Name fi) = true
                 /\ Strconv.ParseInt (Name fi) 10 0 = (pid p, None))
  /\ (forall selfIsDir junkIsDir : bool,
      Processes (scenario selfIsDir junkIsDir)
        = Done (Some [initRecord; kthreaddRecord; sshdRecord], None)).
Proof.
  split.
  - intros w d rs p Hopen Hsnap Hin.
    unfold Processes, processes in Hsnap. rewrite Hopen in Hsnap.
    destruct (readAll_cases w d [] rs Hsnap p Hin) as [[] | (fi & Hfi & Hrec)].
    exists fi. destruct Hrec as (H1 & H2 & H3 & H4 & _). auto.
  - intros [|] [|]; vm_compute; reflexivity.
Qed.

Lemma snapshot_only_numeric_directories_witness :
  exists fi, In fi (entries (listing 5 [mkFileInfo "1" true; mkFileInfo "2" true;
                                       mkFileInfo "self" false;
                                       mkFileInfo "42abc" true;
                                       mkFileInfo "300" true]))
             /\ IsDir fi = true
             /\ Name fi <> ""
             /\ allDigits (Name fi) = true
             /\ Strconv.ParseInt (Name fi) 10 0 = (pid sshdRecord, None).
Proof.
  apply (proj1 snapshot_only_numeric_directories (scenario false true) _
           [initRecord; kthreaddRecord; sshdRecord]).
  - reflexivity.
  - vm_compute. reflexivity.
  - simpl. auto.
Defined.

(** C6. A per-identifier failure can abort the snapshot: with process 1
    healthy and the status record of process 2 lacking its parentheses,
    the enumeration ends in a slice-bounds panic instead of returning the
    record of process 1. *)
Theorem malformed_record_aborts_snapshot :
  Processes (registry [mkFileInfo "1" true; mkFileInfo "2" true]
                      [("/proc/1/stat", "1 (init) S 0 1 1 0 -1");
                       ("/proc/2/stat", "2 kthreadd S 0 0 0 0 -1")])
    = Panic SliceBounds.
Proof. vm_compute. reflexivity. Qed.

(** What does hold for the snapshot: an error is returned only when the
    registry cannot be opened or a [Readdir] call fails. *)
Lemma snapshot_error_origin (w : World) (res : option (list UnixProcess)) (e : error) :
  Processes w = Done (res, Some e) ->
  res = None
  /\ (Open w "/proc" = inr e
      \/ exists d, Open w "/proc" = inl d /\ lastError d = e /\ isEOF e = false).
Proof.
  unfold Processes, processes. destruct (Open w "/proc") as [d|e0] eqn:Hopen.
  - intros H. apply readAll_error in H as (-> & -> & Heof).
    split; [reflexivity|]. right. exists d. auto.
  - intros H. inversion H; subst. auto.
Qed.

(** C10. When a [Readdir] call fails with an error other than [io.EOF]
    after earlier batches were read and their records collected, the
    snapshot returns that error and no collection: the records of the
    earlier batches are dropped.  More generally, whenever the snapshot
    returns an error it returns no collection with it. *)
Theorem readdir_error_discards_records (w : World) (bs : list (list FileInfo))
  (e : error) (rs : list UnixProcess) :
  Open w "/proc" = inl (fold_right ReadBatch (ReadErr e) bs) ->
  rangeBatches w [] bs = Done rs ->
  isEOF e = false ->
  Processes w = Done (None, Some e)
  /\ (forall res e', Processes w = Done (res, Some e') -> res = None).
Proof.
  intros Hopen Hbatches Heof. split.
  - unfold Processes, processes.
    rewrite Hopen, readAll_batches, Hbatches. simpl. now rewrite Heof.
  - intros res e' H. now apply snapshot_error_origin in H.
Qed.

Lemma readdir_error_discards_records_witness :
  rangeBatches failingRegistry [] [[mkFileInfo "1" true]] = Done [initRecord]
  /\ Processes failingRegistry = Done (None, Some ErrIO).
Proof.
  split; [vm_compute; reflexivity|].
  apply (readdir_error_discards_records failingRegistry
           [[mkFileInfo "1" true]] ErrIO [initRecord]).
  - reflexivity.
  - vm_compute. reflexivity.
  - reflexivity.
Defined.

(** * The command line *)

Section CommandLine.

Variable w : World.

Lemma findMatch_found (run : list UnixProcess) (target : string) :
  (exists p, In p run /\ Executable p = target /\ PPid p = 1) ->
  findMatch run target = Exit OK.
Proof.
  induction run as [|i run IH]; intros (p & Hin & Hname & Hpp); [destruct Hin|].
  cbn [findMatch]. destruct (String.eqb (Executable i) target && (PPid i =? 1)) eqn:E;
    [reflexivity|].
  destruct Hin as [-> | Hin].
  - rewrite Hname, Hpp, String.eqb_refl in E. discriminate.
  - apply IH. eauto.
Qed.

Lemma findMatch_none (run : list UnixProcess) (target : string) :
  (forall p, In p run -> ~ (Executable p = target /\ PPid p = 1)) ->
  findMatch run target = Done tt.
Proof.
  induction run as [|i run IH]; intros Hnone; [reflexivity|].
  cbn [findMatch]. destruct (String.eqb (Executable i) target && (PPid i =? 1)) eqn:E.
  - apply andb_true_iff in E as [E1 E2].
    apply String.eqb_eq in E1. apply Z.eqb_eq in E2.
    exfalso. apply (Hnone i); [now left | auto].
  - apply IH. intros p Hp. apply Hnone. now right.
Qed.

Lemma Command_valid (prog target : string) :
  target <> "" ->
  Command [prog; "-c"; target] w
  = ('(procs, err) <- Processes w ;;
     match err with
     | Some e => Done (None, "", Some e)
     | None => Done (procs, target, None)
     end).
Proof.
  intros Hne. unfold Command. simpl.
  apply String.eqb_neq in Hne. now rewrite Hne.
Qed.

Lemma main_usage_error (args : list string) :
  (forall prog target, args = [prog; "-c"; target] -> target = "") ->
  main args w = Exit UNKNOWN.
Proof.
  intros Hbad. unfold main, Command.
  destruct args as [|a0 [|a1 [|a2 [|a3 rest]]]]; try reflexivity.
  simpl. destruct (String.eqb_spec a1 "-c") as [-> | Hne]; [|reflexivity].
  simpl. rewrite (Hbad a0 a2 eq_refl). reflexivity.
Qed.

End CommandLine.

(** C8. The exit code of the program: 0 when some record of the snapshot
    has the target as executable name and 1 as parent identifier, 2 when
    no record has, 3 when the enumeration fails, and 3 on a usage error
    (anything but three arguments, the second being [-c] and the third a
    non-empty target). *)
Theorem main_exit_codes (w : World) (args : list string) :
  (forall prog target,
      args = [prog; "-c"; target] -> target <> "" ->
      (forall rs, Processes w = Done (Some rs, None) ->
                  (exists p, In p rs /\ Executable p = target /\ PPid p = 1) ->
                  main args w = Exit 0)
      /\ (forall rs, Processes w = Done (Some rs, None) ->
                     (forall p, In p rs -> ~ (Executable p = target /\ PPid p = 1)) ->
                     main args w = Exit 2)
      /\ (forall res e, Processes w = Done (res, Some e) -> main args w = Exit 3))
  /\ ((forall prog target, args = [prog; "-c"; target] -> target = "") ->
      main args w = Exit 3).
Proof.
  split.
  - intros prog target -> Hne.
    unfold main. rewrite (Command_valid w prog target Hne).
    repeat split.
    + intros rs Hsnap Hex. rewrite Hsnap. simpl.
      now rewrite (findMatch_found rs target Hex).
    + intros rs Hsnap Hnone. rewrite Hsnap. simpl.
      now rewrite (findMatch_none rs target Hnone).
    + intros res e Hsnap. rewrite Hsnap. reflexivity.
  - apply main_usage_error.
Qed.

Lemma main_exit_codes_witness :
  main ["check_proc"; "-c"; "sshd"] (scenario false false) = Exit 0
  /\ main ["check_proc"; "-c"; "cron"] (scenario false false) = Exit 2
  /\ main ["check_proc"; "-c"; "sshd"]
          closedRegistry = Exit 3
  /\ main ["check_proc"; "sshd"] (scenario false false) = Exit 3.
Proof.
  assert (Hne : forall t : string, String.length t = 4%nat -> t <> "")
    by (intros t Ht ->; discriminate).
  split; [|split; [|split]].
  - destruct (proj1 (main_exit_codes (scenario false false)
                       ["check_proc"; "-c"; "sshd"])
                "check_proc" "sshd" eq_refl (Hne "sshd" eq_refl)) as (Hfound & _ & _).
    apply (Hfound [initRecord; kthreaddRecord; sshdRecord]);
      [vm_compute; reflexivity|].
    exists sshdRecord. simpl. auto.
  - destruct (proj1 (main_exit_codes (scenario false false)
                       ["check_proc"; "-c"; "cron"])
                "check_proc" "cron" eq_refl (Hne "cron" eq_refl)) as (_ & Hnone & _).
    apply (Hnone [initRecord; kthreaddRecord; sshdRecord]);
      [vm_compute; reflexivity|].
    intros p [<- | [<- | [<- | []]]] [Hname _]; discriminate.
  - destruct (proj1 (main_exit_codes closedRegistry
                       ["check_proc"; "-c"; "sshd"])
                "check_proc" "sshd" eq_refl (Hne "sshd" eq_refl)) as (_ & _ & Hfail).
    apply (Hfail None ErrPermission). reflexivity.
  - apply (proj2 (main_exit_codes (scenario false false) ["check_proc"; "sshd"])).
    intros prog target H. discriminate.
Defined.

(** * Records reported without an error *)

Section Inversion.

Lemma app_inj_length (a a' b b' : string) :
  (a ++ b)%string = (a' ++ b')%string ->
  String.length a = String.length a' ->
  a = a' /\ b = b'.
Proof.
  revert a'. induction a as [|x a IH]; intros [|x' a'] H Hlen;
    try discriminate; simpl in *.
  - auto.
  - inversion H; subst. inversion Hlen as [Hlen'].
    destruct (IH a' H2 Hlen') as [-> ->]. auto.
Qed.

Lemma substring_split (n m : nat) (s : string) :
  (n + m <= String.length s)%nat ->
  exists a c, s = (a ++ substring n m s ++ c)%string
              /\ String.length a = n
              /\ String.length (substring n m s) = m.
Proof.
  revert s. induction n as [|n IHn]; intros s Hlen.
  - exists EmptyString. simpl append.
    revert s Hlen. induction m as [|m IHm]; intros s Hlen.
    + exists s. destruct s; auto.
    + destruct s as [|x s]; [simpl in Hlen; lia|].
      destruct (IHm s) as (c & Hs & _ & Hm); [simpl in Hlen; lia|].
      exists c. simpl. rewrite <- Hs. auto.
  - destruct s as [|x s]; [simpl in Hlen; lia|].
    destruct (IHn s) as (a & c & Hs & Ha & Hm); [simpl in Hlen; lia|].
    exists (String x a), c. simpl. rewrite <- Hs. auto.
Qed.

Lemma slice_inv (s x : string) (lo hi : Z) :
  slice s lo hi = Done x ->
  exists a c, s = (a ++ x ++ c)%string /\ len a = lo /\ len x = hi - lo.
Proof.
  unfold slice. destruct (_ && _) eqn:E; [|discriminate].
  apply andb_true_iff in E as [E E3]. apply andb_true_iff in E as [E1 E2].
  apply Z.leb_le in E1, E2, E3. unfold len in E3.
  intros H. inversion H as [Hx].
  destruct (substring_split (Z.to_nat lo) (Z.to_nat (hi - lo)) s)
    as (a & c & Hs & Ha & Hm); [lia|].
  exists a, c. unfold len. rewrite Ha, Hm. repeat split; [exact Hs | lia | lia].
Qed.

Lemma append_empty_r (s : string) : (s ++ "")%string = s.
Proof. induction s as [|x s IH]; simpl; [reflexivity | now rewrite IH]. Qed.

Lemma sliceFrom_inv (s t : string) (lo : Z) :
  sliceFrom s lo = Done t -> exists a, s = (a ++ t)%string /\ len a = lo.
Proof.
  intros H. apply slice_inv in H as (a & c & Hs & Ha & Ht).
  exists a. split; [|exact Ha].
  assert (Hc : c = EmptyString).
  { apply (f_equal len) in Hs. rewrite !len_app in Hs.
    destruct c; [reflexivity|]. rewrite len_String in Hs.
    pose proof (len_nonneg c). lia. }
  subst c. now rewrite append_empty_r in Hs.
Qed.

Lemma IndexByte_inv (t : string) (c : ascii) :
  0 <= Strings.IndexByte t c ->
  exists u v, t = (u ++ String c v)%string
              /\ without c u = true
              /\ len u = Strings.IndexByte t c.
Proof.
  induction t as [|x t IH]; simpl; [lia|].
  destruct (Ascii.eqb_spec x c) as [-> | Hne].
  - intros _. exists EmptyString, t. auto.
  - destruct (Z.ltb_spec (Strings.IndexByte t c) 0) as [|Hge]; [lia|].
    intros _. destruct (IH Hge) as (u & v & -> & Hu & Hlen).
    exists (String x u), v. simpl.
    apply Ascii.eqb_neq in Hne. rewrite Hne, Hu, len_String, Hlen. auto.
Qed.

(** A prefix of [data] that is as long as the position after the first
    opening parenthesis ends with that parenthesis. *)
Lemma prefix_ends_with_opening (data pre rest : string) :
  data = (pre ++ rest)%string ->
  len pre = Strings.IndexRune data "(" + 1 ->
  without "(" data = false ->
  exists before, pre = (before ++ "(")%string /\ without "(" before = true.
Proof.
  intros Hdata Hlen Hhas. unfold Strings.IndexRune in Hlen.
  assert (Hfound : 0 <= Strings.IndexByte data "(").
  { pose proof (IndexByte_lower data "(") as Hlow.
    destruct (Z.eq_dec (Strings.IndexByte data "(") (-1)) as [E|E]; [|lia].
    apply IndexByte_without in E. congruence. }
  destruct (IndexByte_inv data "(" Hfound) as (u & v & Hsplit & Hu & Hulen).
  exists u. split; [|exact Hu].
  assert (E : pre = (u ++ "(")%string /\ rest = v).
  { apply app_inj_length.
    - rewrite <- Hdata, Hsplit, append_assoc. reflexivity.
    - apply Nat2Z.inj. fold (len pre). fold (len (u ++ "(")).
      rewrite len_app, Hlen, Hulen. reflexivity. }
  apply E.
Qed.

(** A scan without error delivered all four operands. *)
Lemma Sscanf_complete (fields : string) (vals : list Z) :
  Fmt.Sscanf_c_d_d_d fields = (vals, None) ->
  exists c a b d, vals = [c; a; b; d].
Proof.
  unfold Fmt.Sscanf_c_d_d_d.
  destruct (Fmt.scanRune _) as [e|[c inp]]; [discriminate|].
  destruct (Fmt.scanSpaceInt inp) as [e|[a inp1]]; [discriminate|].
  destruct (Fmt.scanSpaceInt inp1) as [e|[b inp2]]; [discriminate|].
  destruct (Fmt.scanSpaceInt inp2) as [e|[d inp3]]; [discriminate|].
  intros H. inversion H. eauto.
Qed.

Variable w : World.

Lemma Refresh_success (p q : UnixProcess) :
  Refresh w p = Done (q, None) ->
  pid q = pid p
  /\ exists data, ReadFile w (statPath (pid p)) = inl data /\ populatedFrom data q.
Proof.
  intros Hrefresh. split; [exact (Refresh_pid w _ _ _ Hrefresh)|].
  unfold Refresh in Hrefresh.
  destruct (ReadFile w (statPath (pid p))) as [data|e]; [|discriminate].
  exists data. split; [reflexivity|].
  set (binStart := Strings.IndexRune data "(" + 1) in *.
  destruct (sliceFrom data binStart) as [tail| |] eqn:Htail; try discriminate.
  simpl in Hrefresh.
  set (binEnd := Strings.IndexRune tail ")") in *.
  destruct (slice data binStart (binStart + binEnd)) as [bin| |] eqn:Hbin;
    try discriminate.
  simpl in Hrefresh.
  destruct (sliceFrom data (binStart + binEnd + 2)) as [fields| |] eqn:Hfields;
    try discriminate.
  simpl in Hrefresh.
  destruct (Fmt.Sscanf_c_d_d_d fields) as [vals err] eqn:Hscan.
  inversion Hrefresh as [[Hq Herr]]. subst err.
  destruct (Sscanf_complete _ _ Hscan) as (c & a & b & d & ->).
  (* the end of the name was found *)
  assert (Hend : 0 <= binEnd).
  { destruct (Z.lt_ge_cases binEnd 0) as [Hneg|]; [|assumption].
    rewrite slice_inverted in Hbin by lia. discriminate. }
  apply sliceFrom_inv in Htail as (pre & Hdata & Hpre).
  destruct (IndexByte_inv tail ")" Hend) as (name & after & Htl & Hname & Hlen).
  change (Strings.IndexByte tail ")") with binEnd in Hlen.
  apply slice_inv in Hbin as (pre' & c' & Hdata' & Hpre' & Hbinlen).
  assert (HbinStart : binStart = Strings.IndexRune data "(" + 1) by reflexivity.
  clearbody binStart binEnd.
  assert (Epre : pre' = pre /\ (bin ++ c')%string = tail).
  { apply app_inj_length; [congruence|]. unfold len in *. lia. }
  destruct Epre as [-> Etail].
  assert (Ebin : bin = name /\ c' = String ")" after).
  { apply app_inj_length; [congruence|]. unfold len in *. lia. }
  destruct Ebin as [-> ->].
  apply sliceFrom_inv in Hfields as (upto & Hdata'' & Hupto).
  assert (Eupto : exists sep, after = String sep fields).
  { destruct after as [|sep after].
    - exfalso. apply (f_equal len) in Hdata''.
      rewrite Hdata, Htl, !len_app, !len_String in Hdata''.
      pose proof (len_nonneg fields). change (len "") with 0 in Hdata''. lia.
    - exists sep. f_equal.
      assert (E : upto = ((pre ++ name) ++ String ")" (String sep ""))%string
                  /\ fields = after).
      { apply app_inj_length.
        - rewrite <- Hdata'', Hdata, Htl, !append_assoc. reflexivity.
        - apply Nat2Z.inj. fold (len upto). rewrite Hupto.
          fold (len ((pre ++ name) ++ String ")" (String sep ""))).
          rewrite !len_app, !len_String. change (len "") with 0. lia. }
      symmetry. apply E. }
  destruct Eupto as (sep & ->).
  exists pre, name, fields, sep, c, a, b, d.
  split; [now rewrite Hdata, Htl|].
  split; [exact Hname|].
  split.
  { apply (prefix_ends_with_opening data pre tail Hdata). congruence. }
  split; [exact Hscan|].
  reflexivity.
Qed.

End Inversion.

(** C5, as stated, fails: the status text ["7 () S 1 7 7"] parses without
    error into a record with an empty executable name, so not every
    successfully parsed record has a non-empty name; and for the text
    ["300 (sshd) S x 300 300"] lookup returns, next to the error, a record
    that holds the name and the state but no parent, group or session, so
    a parse failure can come with a partly filled record. *)
Lemma parsed_name_can_be_empty :
  newUnixProcess 7 (oneProcess 7 "7 () S 1 7 7") = Done (emptyNameRecord, None)
  /\ Executable emptyNameRecord = ""
  /\ ~ (forall w n p, newUnixProcess n w = Done (p, None) -> Executable p <> "")
  /\ FindProcess 300 (oneProcess 300 "300 (sshd) S x 300 300")
     = Done (Some (mkUnixProcess 300 0 (byteVal "S") 0 0 "sshd"),
             Some (ErrScan "expected integer"))
  /\ ~ (forall w n r e, FindProcess n w = Done (r, Some e) -> r = None).
Proof.
  assert (H1 : newUnixProcess 7 (oneProcess 7 "7 () S 1 7 7")
               = Done (emptyNameRecord, None)) by (vm_compute; reflexivity).
  assert (H2 : FindProcess 300 (oneProcess 300 "300 (sshd) S x 300 300")
               = Done (Some (mkUnixProcess 300 0 (byteVal "S") 0 0 "sshd"),
                       Some (ErrScan "expected integer")))
    by (vm_compute; reflexivity).
  split; [exact H1|]. split; [reflexivity|]. split.
  - intros H. now apply (H _ _ _ H1).
  - split; [exact H2|]. intros H. specialize (H _ _ _ _ H2). discriminate.
Qed.

(** C5, amended. A record reported without an error is fully populated:
    its identifier is the one asked for; its name is a part of the status
    text that holds no closing parenthesis and is followed by one; state,
    parent, group and session were all four scanned from the text that
    follows that parenthesis and one more byte; and when the status text
    has an opening parenthesis, the name is exactly the text between the
    first opening parenthesis and the next closing one.  This holds for
    the parser, for lookup and for every record of a snapshot, so a parse
    failure puts no record into a snapshot.  (The name may be empty.) *)
Theorem reported_records_are_complete (w : World) :
  (forall n p, newUnixProcess n w = Done (p, None) ->
     pid p = n
     /\ exists data, ReadFile w (statPath n) = inl data /\ populatedFrom data p)
  /\ (forall n p, FindProcess n w = Done (Some p, None) ->
     pid p = n
     /\ exists data, ReadFile w (statPath n) = inl data /\ populatedFrom data p)
  /\ (forall rs p, Processes w = Done (Some rs, None) -> In p rs ->
     newUnixProcess (pid p) w = Done (p, None)
     /\ exists data, ReadFile w (statPath (pid p)) = inl data /\ populatedFrom data p).
Proof.
  assert (Hnew : forall n p, newUnixProcess n w = Done (p, None) ->
     pid p = n
     /\ exists data, ReadFile w (statPath n) = inl data /\ populatedFrom data p).
  { intros n p H. apply Refresh_success in H. exact H. }
  split; [exact Hnew|]. split.
  - intros n p. unfold FindProcess, findProcess.
    destruct (Stat w (procDir n)) as [e|].
    + destruct (IsNotExist e); discriminate.
    + destruct (newUnixProcess n w) as [[q err]| |] eqn:Hq; simpl; try discriminate.
      intros H. inversion H; subst. now apply Hnew.
  - intros rs p Hsnap Hin. unfold Processes, processes in Hsnap.
    destruct (Open w "/proc") as [d|e]; [|discriminate].
    destruct (readAll_cases w d [] rs Hsnap p Hin) as [[] | (fi & _ & Hrec)].
    destruct Hrec as (_ & _ & _ & _ & Hp).
    split; [exact Hp|]. now apply Hnew.
Qed.

Lemma reported_records_are_complete_witness :
  pid sshdRecord = 300
  /\ exists data,
       ReadFile (scenario false false) (statPath 300) = inl data
       /\ populatedFrom data sshdRecord.
Proof.
  apply (proj1 (reported_records_are_complete (scenario false false)) 300 sshdRecord).
  vm_compute. reflexivity.
Defined.

(** * Decimal numerals: printing with [%d] and scanning them back *)

Section Numerals.

Import Decimal.

Lemma uintVal_pos (d : uint) (acc : positive) :
  uintVal d (Z.pos acc) = Z.pos (Pos.of_uint_acc d acc).
Proof.
  revert acc. induction d; intros acc; cbn [uintVal Pos.of_uint_acc];
    try reflexivity; rewrite <- IHd; f_equal; lia.
Qed.

Lemma uintVal_zero (d : uint) : uintVal d 0 = Z.of_N (Pos.of_uint d).
Proof.
  induction d; cbn [uintVal Pos.of_uint]; try reflexivity; try exact IHd;
    cbn [Z.of_N]; rewrite <- uintVal_pos; reflexivity.
Qed.

Lemma uintVal_grows (d : uint) (acc : Z) : 0 <= acc -> acc <= uintVal d acc.
Proof.
  revert acc. induction d; intros acc Hacc; cbn [uintVal]; try lia;
    match goal with
    | |- _ <= uintVal _ ?a => specialize (IHd a); lia
    end.
Qed.

Lemma parseDigits_uint (d : uint) (n : Z) :
  0 <= n ->
  uintVal d n <= Strconv.maxUint64 ->
  Strconv.parseDigits 10 (Strconv.maxUint64 / 10 + 1) Strconv.maxUint64
    (NilEmpty.string_of_uint d) n = (uintVal d n, None).
Proof.
  change Strconv.maxUint64 with 18446744073709551615.
  change (18446744073709551615 / 10 + 1) with 1844674407370955162.
  revert n. induction d; intros n Hn Hmax; simpl NilEmpty.string_of_uint;
    [reflexivity | ..];
    cbn [Strconv.parseDigits uintVal] in *;
    match goal with
    | |- context [Strconv.digitVal ?c] =>
        let v := eval vm_compute in (Strconv.digitVal c) in
        change (Strconv.digitVal c) with v
    end;
    cbv iota;
    match goal with
    | |- context [10 <=? ?k] => change (10 <=? k) with false
    end;
    cbv iota;
    match type of Hmax with
    | uintVal _ ?a <= _ =>
        pose proof (uintVal_grows d a ltac:(lia)) as Hgrow
    end;
    (replace (1844674407370955162 <=? n) with false
       by (symmetry; apply Z.leb_gt; lia));
    cbv zeta;
    match goal with
    | |- context [(?a mod 2 ^ 64)] =>
        replace (a mod 2 ^ 64) with a
          by (symmetry; apply Z.mod_small; change (2 ^ 64) with 18446744073709551616; lia)
    end;
    match goal with
    | |- context [(?a <? ?b) || (?c <? ?e)] =>
        replace ((a <? b) || (c <? e)) with false
          by (symmetry; apply orb_false_iff; split; apply Z.ltb_ge; lia)
    end;
    rewrite Z.mul_comm;
    try rewrite Z.add_0_r in *;
    apply IHd; lia.
Qed.

Lemma uint_text_digits (d : uint) : allDigits (NilEmpty.string_of_uint d) = true.
Proof. induction d; simpl; [reflexivity | ..]; exact IHd. Qed.

Lemma numeral_digits (d : uint) : allDigits (NilZero.string_of_uint d) = true.
Proof. destruct d; try reflexivity; apply (uint_text_digits (_ d)). Qed.

Lemma numeral_nonempty (d : uint) : NilZero.string_of_uint d <> "".
Proof. destruct d; discriminate. Qed.

Lemma ParseUint_numeral (d : uint) :
  uintVal d 0 <= Strconv.maxUint64 ->
  Strconv.ParseUint (NilZero.string_of_uint d) 10 64 = (uintVal d 0, None).
Proof.
  intros Hmax.
  assert (H : Strconv.parseDigits 10 (Strconv.maxUint64 / 10 + 1) Strconv.maxUint64
                (NilZero.string_of_uint d) 0 = (uintVal d 0, None)).
  { destruct d; try (apply parseDigits_uint; [lia | exact Hmax]). reflexivity. }
  unfold Strconv.ParseUint.
  destruct (NilZero.string_of_uint d) eqn:E; [now apply numeral_nonempty in E|].
  exact H.
Qed.

Lemma digits_not_sign (s : string) (c : ascii) (t : string) :
  allDigits s = true -> s = String c t ->
  Ascii.eqb c "+" = false /\ Ascii.eqb c "-" = false.
Proof.
  intros Hd ->. simpl in Hd.
  apply andb_true_iff in Hd as [Hd _]. apply andb_true_iff in Hd as [H1 _].
  apply Z.leb_le in H1.
  split; apply Ascii.eqb_neq; intros E; subst c; vm_compute in H1; now apply H1.
Qed.

(** Scanning back what [%d] printed gives the number, for every [int]. *)
Lemma ParseInt_FormatInt (z : Z) :
  - 2 ^ 63 <= z < 2 ^ 63 ->
  Strconv.ParseInt (Strconv.FormatInt z) 10 64 = (z, None).
Proof.
  intros Hz. unfold Strconv.FormatInt.
  assert (Hval : forall p, uintVal (Pos.to_uint p) 0 = Z.pos p).
  { intros p. now rewrite uintVal_zero, DecimalPos.Unsigned.of_to. }
  change (2 ^ 63) with 9223372036854775808 in Hz.
  destruct z as [|p|p]; simpl Z.to_int; simpl NilZero.string_of_int.
  - reflexivity.
  - unfold Strconv.ParseInt.
    destruct (NilZero.string_of_uint (Pos.to_uint p)) as [|c t] eqn:E;
      [now apply numeral_nonempty in E|].
    destruct (digits_not_sign _ c t (numeral_digits (Pos.to_uint p)) E) as [H1 H2].
    rewrite H1, H2. simpl orb. cbv iota. rewrite <- E.
    rewrite ParseUint_numeral
      by (rewrite Hval; change Strconv.maxUint64 with 18446744073709551615; lia).
    rewrite Hval. cbn [Z.eqb]. cbv iota zeta.
    change (2 ^ (64 - 1)) with 9223372036854775808.
    replace (9223372036854775808 <=? Z.pos p) with false
      by (symmetry; apply Z.leb_gt; lia).
    reflexivity.
  - unfold Strconv.ParseInt.
    change (Ascii.eqb "-" "+") with false. change (Ascii.eqb "-" "-") with true.
    simpl orb. cbv iota.
    rewrite ParseUint_numeral
      by (rewrite Hval; change Strconv.maxUint64 with 18446744073709551615; lia).
    rewrite Hval. cbn [Z.eqb]. cbv iota zeta.
    change (2 ^ (64 - 1)) with 9223372036854775808.
    replace (9223372036854775808 <? Z.pos p) with false
      by (symmetry; apply Z.ltb_ge; lia).
    reflexivity.
Qed.

End Numerals.

(** * Scanning what was printed *)

Section ScanPrinted.

Lemma byteVal_nonneg (c : ascii) : 0 <= byteVal c.
Proof. unfold byteVal. lia. Qed.

Lemma runes_ascii (c : ascii) (t : string) :
  (byteVal c <? 128) = true ->
  Utf8.runes (String c t) = byteVal c :: Utf8.runes t.
Proof.
  intros H. unfold Utf8.runes. cbn [Utf8.runesFrom Utf8.DecodeRuneInString].
  change 0x80 with 128. rewrite H. reflexivity.
Qed.

Lemma runes_app_ascii (s t : string) :
  allAscii s = true -> Utf8.runes (s ++ t) = (asRunes s ++ Utf8.runes t)%list.
Proof.
  induction s as [|c s IH]; intros H; [reflexivity|].
  simpl in H. apply andb_true_iff in H as [Hc Hs].
  simpl append. rewrite (runes_ascii c _ Hc), (IH Hs). reflexivity.
Qed.

Lemma digits_ascii (s : string) : allDigits s = true -> allAscii s = true.
Proof.
  induction s as [|c s IH]; intros H; [reflexivity|].
  simpl in H. apply andb_true_iff in H as [Hc Hs].
  apply andb_true_iff in Hc as [_ Hc]. apply Z.leb_le in Hc.
  simpl. rewrite (IH Hs), andb_true_r. apply Z.ltb_lt. lia.
Qed.

Lemma tokenString_asRunes (s : string) : Fmt.tokenString (asRunes s) = s.
Proof.
  unfold Fmt.tokenString, asRunes, byteVal. rewrite map_map.
  induction s as [|c s IH]; [reflexivity|].
  simpl. rewrite N2Z.id, ascii_N_embedding. f_equal. exact IH.
Qed.

Lemma acceptDigits_stops (rest : list rune) :
  stops rest = true -> Fmt.acceptDigits rest = ([], rest).
Proof.
  destruct rest as [|r rest]; [reflexivity|]. simpl.
  intros H. apply negb_true_iff in H. now rewrite H.
Qed.

Lemma acceptDigits_digits (s : string) (rest : list rune) :
  allDigits s = true -> stops rest = true ->
  Fmt.acceptDigits (asRunes s ++ rest) = (asRunes s, rest).
Proof.
  intros Hs Hrest. induction s as [|c s IH]; [now apply acceptDigits_stops|].
  simpl in Hs. apply andb_true_iff in Hs as [Hc Hs].
  change (asRunes (String c s)) with (byteVal c :: asRunes s).
  simpl. unfold Fmt.isDigit at 1. rewrite Hc, (IH Hs). reflexivity.
Qed.

Lemma startsNumeral_not_space (r : rune) :
  startsNumeral r = true ->
  Fmt.isSpace r = false /\ (r =? Fmt.newline) = false /\ (r =? 13) = false.
Proof.
  unfold startsNumeral, Fmt.isDigit, Fmt.isSpace, Fmt.newline. intros H.
  assert (Hr : 45 <= r <= 57).
  { apply orb_true_iff in H as [H | H].
    - apply andb_true_iff in H as [H1 H2]. apply Z.leb_le in H1, H2. lia.
    - apply Z.eqb_eq in H. lia. }
  assert (Hcases : In r [45; 46; 47; 48; 49; 50; 51; 52; 53; 54; 55; 56; 57])
    by (simpl; lia).
  simpl in Hcases.
  repeat (destruct Hcases as [<- | Hcases]; [repeat split; reflexivity|]).
  destruct Hcases.
Qed.

Lemma SkipSpace_numeral (r : rune) (rest : list rune) :
  startsNumeral r = true -> Fmt.SkipSpace (r :: rest) = inr (tt, r :: rest).
Proof.
  intros H. destruct (startsNumeral_not_space r H) as (Hsp & Hnl & Hcr).
  simpl. rewrite Hcr, Hnl, Hsp. reflexivity.
Qed.

Lemma skipBlanks_numeral (r : rune) (rest : list rune) :
  startsNumeral r = true -> Fmt.skipBlanks (r :: rest) = r :: rest.
Proof.
  intros H. destruct (startsNumeral_not_space r H) as (Hsp & _ & _).
  simpl. rewrite Hsp. reflexivity.
Qed.

(** What [%d] prints: an optional minus sign and decimal digits. *)
Lemma FormatInt_shape (z : Z) :
  exists digits : string,
    allDigits digits = true /\ digits <> ""
    /\ (Strconv.FormatInt z = digits \/ Strconv.FormatInt z = String "-" digits).
Proof.
  unfold Strconv.FormatInt.
  destruct z as [|p|p]; simpl Z.to_int; simpl NilZero.string_of_int.
  - exists "0". repeat split; [discriminate | now left].
  - exists (NilZero.string_of_uint (Pos.to_uint p)).
    split; [apply numeral_digits|]. split; [apply numeral_nonempty | now left].
  - exists (NilZero.string_of_uint (Pos.to_uint p)).
    split; [apply numeral_digits|]. split; [apply numeral_nonempty | now right].
Qed.

Lemma FormatInt_ascii (z : Z) : allAscii (Strconv.FormatInt z) = true.
Proof.
  destruct (FormatInt_shape z) as (ds & Hds & _ & [-> | ->]).
  - now apply digits_ascii.
  - simpl. now apply digits_ascii.
Qed.

Lemma digits_without (c : ascii) (s : string) :
  (byteVal c <? 48) || (57 <? byteVal c) = true ->
  allDigits s = true -> without c s = true.
Proof.
  intros Hc. induction s as [|x s IH]; intros H; [reflexivity|].
  simpl in H. apply andb_true_iff in H as [Hx Hs].
  simpl. rewrite (IH Hs), andb_true_r. apply negb_true_iff, Ascii.eqb_neq.
  intros ->. apply andb_true_iff in Hx as [H1 H2]. apply Z.leb_le in H1, H2.
  apply orb_true_iff in Hc as [Hc | Hc]; apply Z.ltb_lt in Hc; lia.
Qed.

Lemma FormatInt_without_paren (z : Z) : without "(" (Strconv.FormatInt z) = true.
Proof.
  destruct (FormatInt_shape z) as (ds & Hds & _ & [-> | ->]).
  - now apply digits_without.
  - simpl. now apply digits_without.
Qed.

(** The verb [%d] on the text [%d] printed, followed by [rest]. *)
Lemma scanInt_FormatInt (z : Z) (rest : list rune) :
  - 2 ^ 63 <= z < 2 ^ 63 ->
  stops rest = true ->
  Fmt.scanInt (asRunes (Strconv.FormatInt z) ++ rest) = inr (z, rest).
Proof.
  intros Hz Hrest. pose proof (ParseInt_FormatInt z Hz) as Hparse.
  destruct (FormatInt_shape z) as (ds & Hds & Hne & [E | E]);
    rewrite E in *; clear E.
  - destruct ds as [|c ds]; [congruence|].
    assert (Hc : Fmt.isDigit (byteVal c) = true).
    { simpl in Hds. apply andb_true_iff in Hds as [Hc _]. exact Hc. }
    change (asRunes (String c ds) ++ rest)%list
      with (byteVal c :: (asRunes ds ++ rest)%list).
    unfold Fmt.scanInt.
    rewrite SkipSpace_numeral by (unfold startsNumeral; now rewrite Hc).
    assert (Hsign : Fmt.isSign (byteVal c) = false).
    { unfold Fmt.isDigit in Hc. apply andb_true_iff in Hc as [H1 H2].
      apply Z.leb_le in H1, H2. unfold Fmt.isSign.
      apply orb_false_iff; split; apply Z.eqb_neq; lia. }
    rewrite Hsign, Hc. cbn [negb].
    change (byteVal c :: (asRunes ds ++ rest)%list)
      with (asRunes (String c ds) ++ rest)%list.
    rewrite (acceptDigits_digits _ _ Hds Hrest).
    cbn [app]. rewrite tokenString_asRunes, Hparse. reflexivity.
  - destruct ds as [|c ds]; [congruence|].
    assert (Hc : Fmt.isDigit (byteVal c) = true).
    { simpl in Hds. apply andb_true_iff in Hds as [Hc _]. exact Hc. }
    change (asRunes (String "-" (String c ds)) ++ rest)%list
      with (45 :: byteVal c :: (asRunes ds ++ rest)%list).
    unfold Fmt.scanInt.
    rewrite SkipSpace_numeral by reflexivity.
    change (Fmt.isSign 45) with true. cbv iota. rewrite Hc. cbn [negb].
    change (byteVal c :: (asRunes ds ++ rest)%list)
      with (asRunes (String c ds) ++ rest)%list.
    rewrite (acceptDigits_digits _ _ Hds Hrest).
    change ([45] ++ asRunes (String c ds))%list
      with (asRunes (String "-" (String c ds))).
    rewrite tokenString_asRunes, Hparse. reflexivity.
Qed.

Lemma FormatInt_head (z : Z) (rest : list rune) :
  exists r tl, (asRunes (Strconv.FormatInt z) ++ rest)%list = r :: tl
               /\ startsNumeral r = true.
Proof.
  destruct (FormatInt_shape z) as (ds & Hds & Hne & [-> | ->]).
  - destruct ds as [|c ds]; [congruence|].
    exists (byteVal c), (asRunes ds ++ rest)%list. split; [reflexivity|].
    simpl in Hds. apply andb_true_iff in Hds as [Hc _].
    unfold startsNumeral, Fmt.isDigit. now rewrite Hc.
  - exists 45, (asRunes ds ++ rest)%list. split; reflexivity.
Qed.

(** The step [" %d"] on a space followed by the printed number. *)
Lemma scanSpaceInt_FormatInt (z : Z) (rest : list rune) :
  - 2 ^ 63 <= z < 2 ^ 63 ->
  stops rest = true ->
  Fmt.scanSpaceInt (32 :: asRunes (Strconv.FormatInt z) ++ rest) = inr (z, rest).
Proof.
  intros Hz Hrest. unfold Fmt.scanSpaceInt.
  change (Fmt.advanceSpace (32 :: asRunes (Strconv.FormatInt z) ++ rest))
    with (@inr error _ (tt, Fmt.skipBlanks (asRunes (Strconv.FormatInt z) ++ rest))).
  cbv iota beta.
  destruct (FormatInt_head z rest) as (r & tl & E & Hr).
  rewrite E, (skipBlanks_numeral r tl Hr), (SkipSpace_numeral r tl Hr), <- E.
  now apply scanInt_FormatInt.
Qed.

(** A rune that is no space is neither a newline nor a carriage return. *)
Lemma not_space_not_newline (r : rune) :
  Fmt.isSpace r = false -> (r =? 13) = false /\ (r =? Fmt.newline) = false.
Proof.
  unfold Fmt.isSpace, Fmt.newline. intros H.
  repeat (apply orb_false_iff in H as [H _]).
  apply andb_false_iff in H.
  split; apply Z.eqb_neq; intros ->; destruct H; discriminate.
Qed.

(** Text in the place of the parent identifier that starts with a byte
    which is no digit, sign or space stops the scan after the state, with
    the error "expected integer". *)
Lemma nonnumeric_parent_rejected (st c : ascii) (t : string) :
  (byteVal st <? 128) = true ->
  (byteVal c <? 128) = true ->
  Fmt.isDigit (byteVal c) = false ->
  Fmt.isSign (byteVal c) = false ->
  Fmt.isSpace (byteVal c) = false ->
  Fmt.Sscanf_c_d_d_d (String st (String " " (String c t)))
    = ([byteVal st], Some (ErrScan "expected integer")).
Proof.
  intros Hst Hc Hdigit Hsign Hspace.
  destruct (not_space_not_newline _ Hspace) as [Hcr Hnl].
  unfold Fmt.Sscanf_c_d_d_d.
  rewrite (runes_ascii st _ Hst), (runes_ascii " ") by reflexivity.
  rewrite (runes_ascii c _ Hc).
  cbn [Fmt.scanRune]. unfold Fmt.scanSpaceInt.
  change (byteVal " ") with 32.
  change (Fmt.advanceSpace (32 :: byteVal c :: Utf8.runes t))
    with (@inr error _ (tt, Fmt.skipBlanks (byteVal c :: Utf8.runes t))).
  cbv iota beta. cbn [Fmt.skipBlanks]. rewrite Hspace. cbn [andb].
  assert (Hskip : Fmt.SkipSpace (byteVal c :: Utf8.runes t)
                  = inr (tt, byteVal c :: Utf8.runes t)).
  { cbn [Fmt.SkipSpace]. rewrite Hcr, Hnl, Hspace. reflexivity. }
  rewrite Hskip. unfold Fmt.scanInt. rewrite Hskip, Hsign, Hdigit.
  reflexivity.
Qed.

End ScanPrinted.

(** * Round trip through the documented record format *)

Section RoundTrip.

Lemma furtherFields_stops (more : string) :
  furtherFields more -> stops (Utf8.runes more) = true.
Proof.
  intros [-> | (t & ->)]; [reflexivity|].
  rewrite runes_ascii by reflexivity. reflexivity.
Qed.

Lemma Sscanf_fieldsText (p : UnixProcess) (more : string) :
  0 <= state p < 128 ->
  isInt (ppid p) -> isInt (pgrp p) -> isInt (sid p) ->
  furtherFields more ->
  Fmt.Sscanf_c_d_d_d (fieldsText p more)
    = ([state p; ppid p; pgrp p; sid p], None).
Proof.
  intros Hst Hpp Hpg Hsid Hmore.
  assert (Hbyte : byteVal (stateByte p) = state p).
  { unfold byteVal, stateByte. rewrite N_ascii_embedding; [lia|].
    apply N2Z.inj_lt. rewrite Z2N.id by lia. change (Z.of_N 256) with 256. lia. }
  unfold Fmt.Sscanf_c_d_d_d, fieldsText.
  rewrite runes_ascii by (rewrite Hbyte; apply Z.ltb_lt; lia).
  rewrite Hbyte. cbn [Fmt.scanRune].
  change (" " ++ Strconv.FormatInt (ppid p) ++ " " ++ Strconv.FormatInt (pgrp p)
              ++ " " ++ Strconv.FormatInt (sid p) ++ more)%string
    with (String " " (Strconv.FormatInt (ppid p)
            ++ String " " (Strconv.FormatInt (pgrp p)
            ++ String " " (Strconv.FormatInt (sid p) ++ more))))%string.
  rewrite (runes_ascii " ") by reflexivity.
  rewrite runes_app_ascii by apply FormatInt_ascii.
  rewrite (runes_ascii " ") by reflexivity.
  rewrite runes_app_ascii by apply FormatInt_ascii.
  rewrite (runes_ascii " ") by reflexivity.
  rewrite runes_app_ascii by apply FormatInt_ascii.
  change (byteVal " ") with 32.
  rewrite (scanSpaceInt_FormatInt (ppid p)) by (assumption || reflexivity).
  rewrite (scanSpaceInt_FormatInt (pgrp p)) by (assumption || reflexivity).
  rewrite (scanSpaceInt_FormatInt (sid p))
    by (assumption || now apply furtherFields_stops).
  reflexivity.
Qed.

Variable w : World.

(** X7. Parsing the record that carries the fields of [p] gives [p] back,
    provided the name has no closing parenthesis: whatever the identifier,
    the ASCII state code and the parent, group and session numbers are,
    and whatever fields follow the session. *)
Lemma roundtrip_plain_name (p : UnixProcess) (more : string) :
  ReadFile w (statPath (pid p)) = inl (statRecord p more) ->
  without ")" (binary p) = true ->
  0 <= state p < 128 ->
  isInt (ppid p) -> isInt (pgrp p) -> isInt (sid p) ->
  furtherFields more ->
  newUnixProcess (pid p) w = Done (p, None).
Proof.
  intros Hread Hname Hst Hpp Hpg Hsid Hmore.
  unfold newUnixProcess.
  rewrite (Refresh_shape w _ (Strconv.FormatInt (pid p) ++ " ") (binary p)
             (fieldsText p more) " ").
  - rewrite (Sscanf_fieldsText p more) by assumption.
    destruct p; reflexivity.
  - cbn [pid]. rewrite Hread. f_equal. unfold statRecord.
    rewrite !append_assoc. reflexivity.
  - assert (H : forall s, without "(" s = true -> without "(" (s ++ " ") = true).
    { induction s as [|x s IH]; simpl; intros H; [reflexivity|].
      apply andb_true_iff in H as [H1 H2]. now rewrite H1, IH. }
    apply H, FormatInt_without_paren.
  - exact Hname.
Qed.

(** X6. A record whose parent field is no number: [newUnixProcess] returns
    the error (with the name and the state stored), lookup returns it, and
    the enumeration skips the entry. *)
Lemma nonnumeric_parent_is_error (n : Z) (pre name t : string) (sep st c : ascii) :
  ReadFile w (statPath n)
    = inl (pre ++ String "(" (name ++ String ")"
             (String sep (String st (String " " (String c t))))))%string ->
  without "(" pre = true ->
  without ")" name = true ->
  (byteVal st <? 128) = true ->
  (byteVal c <? 128) = true ->
  Fmt.isDigit (byteVal c) = false ->
  Fmt.isSign (byteVal c) = false ->
  Fmt.isSpace (byteVal c) = false ->
  newUnixProcess n w
    = Done (mkUnixProcess n 0 (byteVal st) 0 0 name,
            Some (ErrScan "expected integer"))
  /\ (Stat w (procDir n) = None ->
      FindProcess n w
        = Done (Some (mkUnixProcess n 0 (byteVal st) 0 0 name),
                Some (ErrScan "expected integer")))
  /\ (forall rs fi ch,
        index0 (Name fi) = Done ch ->
        Strconv.ParseInt (Name fi) 10 0 = (n, None) ->
        visit w rs fi = Done rs).
Proof.
  intros Hread Hpre Hname Hst Hc Hdigit Hsign Hspace.
  assert (Hnew : newUnixProcess n w
                 = Done (mkUnixProcess n 0 (byteVal st) 0 0 name,
                         Some (ErrScan "expected integer"))).
  { unfold newUnixProcess.
    rewrite (Refresh_shape w (mkUnixProcess n 0 0 0 0 "") pre name
               (String st (String " " (String c t))) sep Hread Hpre Hname).
    now rewrite nonnumeric_parent_rejected. }
  split; [exact Hnew|]. split.
  - intros Hstat. now apply lookup_surfaces_parse_error.
  - intros rs fi ch Hch Hparse.
    now apply (visit_skips_failure w rs fi ch n _ _ Hch Hparse Hnew).
Qed.

End RoundTrip.

Lemma nonnumeric_parent_is_error_witness :
  newUnixProcess 300 (oneProcess 300 "300 (sshd) S x 300 300")
    = Done (mkUnixProcess 300 0 (byteVal "S") 0 0 "sshd",
            Some (ErrScan "expected integer"))
  /\ FindProcess 300 (oneProcess 300 "300 (sshd) S x 300 300")
     = Done (Some (mkUnixProcess 300 0 (byteVal "S") 0 0 "sshd"),
             Some (ErrScan "expected integer"))
  /\ visit (oneProcess 300 "300 (sshd) S x 300 300") [] (mkFileInfo "300" true)
     = Done [].
Proof.
  destruct (nonnumeric_parent_is_error
              (oneProcess 300 "300 (sshd) S x 300 300")
              300 "300 " "sshd" " 300 300" " " "S" "x")
    as (Hnew & Hlookup & Hvisit); try reflexivity.
  split; [exact Hnew|]. split; [apply Hlookup; reflexivity|].
  apply (Hvisit [] (mkFileInfo "300" true) "3"%char); reflexivity.
Defined.

(** C9. The round trip fails for a name with a closing parenthesis: the
    record of the documented format for id 5, name [a)b], state [S] and
    parent 1 is ["5 (a)b) S 1 5 5"], and parsing it gives the name [a], the
    state [)] and an error instead of the four fields. *)
Theorem roundtrip_fails_on_closing_parenthesis :
  statRecord parenRecord "" = "5 (a)b) S 1 5 5"
  /\ newUnixProcess 5 (oneProcess 5 (statRecord parenRecord ""))
     = Done (mkUnixProcess 5 0 (byteVal ")") 0 0 "a",
             Some (ErrScan "expected integer"))
  /\ newUnixProcess 5 (oneProcess 5 (statRecord parenRecord ""))
     <> Done (parenRecord, None).
Proof.
  split; [vm_compute; reflexivity|].
  assert (H : newUnixProcess 5 (oneProcess 5 (statRecord parenRecord ""))
              = Done (mkUnixProcess 5 0 (byteVal ")") 0 0 "a",
                      Some (ErrScan "expected integer")))
    by (vm_compute; reflexivity).
  split; [exact H|]. rewrite H. discriminate.
Qed.

(** The round trip on a name without closing parenthesis, at a record. *)
Lemma roundtrip_plain_name_example :
  newUnixProcess 300 (oneProcess 300 (statRecord sshdRecord " 0 -1 4194560"))
    = Done (sshdRecord, None).
Proof.
  apply (roundtrip_plain_name _ sshdRecord " 0 -1 4194560");
    try reflexivity; try (vm_compute; split; [discriminate | reflexivity]).
  right. now exists "0 -1 4194560".
Defined.

(** * More on the parser: what it ignores and where it breaks *)

Section ParserEdges.

Variable w : World.

Lemma sliceFrom_beyond (s : string) (lo : Z) :
  len s < lo -> sliceFrom s lo = Panic SliceBounds.
Proof. intros H. unfold sliceFrom. now apply slice_inverted. Qed.

(** [Refresh] on a record [head ++ name ++ ")" ++ sep ++ fields] whose name
    starts where [Refresh] starts it. *)
Lemma Refresh_at (p : UnixProcess) (head name fields : string) (sep : ascii) :
  ReadFile w (statPath (pid p))
    = inl (head ++ name ++ String ")" (String sep fields))%string ->
  Strings.IndexRune (head ++ name ++ String ")" (String sep fields)) "(" + 1
    = len head ->
  without ")" name = true ->
  Refresh w p
    = Done (store (set_binary p name) (fst (Fmt.Sscanf_c_d_d_d fields)),
            snd (Fmt.Sscanf_c_d_d_d fields)).
Proof.
  intros Hread Hstart Hname. unfold Refresh. rewrite Hread, Hstart.
  rewrite sliceFrom_app. simpl bind.
  replace (Strings.IndexRune (name ++ String ")" (String sep fields)) ")")
    with (len name) by (symmetry; apply IndexByte_app_at, Hname).
  rewrite slice_app. simpl bind.
  replace (head ++ name ++ String ")" (String sep fields))%string
    with (((head ++ name) ++ ")" ++ String sep "") ++ fields)%string
    by (rewrite !append_assoc; reflexivity).
  replace (len head + len name + 2)
    with (len ((head ++ name) ++ ")" ++ String sep ""))
    by (rewrite !len_app; reflexivity).
  rewrite sliceFrom_app. simpl bind.
  destruct (Fmt.Sscanf_c_d_d_d fields) as [vals err]. reflexivity.
Qed.

End ParserEdges.

(** X1. Of a record [pre ( name ) sep fields] the parser uses the name and
    the fields only: the text before the opening parenthesis (the record's
    own identifier) is not looked at, and the byte after the closing
    parenthesis is skipped whatever it is. *)
Theorem record_prefix_and_separator_ignored (w : World) (p : UnixProcess)
  (pre name fields : string) (sep : ascii) :
  ReadFile w (statPath (pid p))
    = inl (pre ++ String "(" (name ++ String ")" (String sep fields))) ->
  without "(" pre = true ->
  without ")" name = true ->
  Refresh w p
    = Done (store (set_binary p name) (fst (Fmt.Sscanf_c_d_d_d fields)),
            snd (Fmt.Sscanf_c_d_d_d fields)).
Proof.
  intros Hread Hpre Hname.
  apply (Refresh_at w p (pre ++ "(") name fields sep).
  - rewrite Hread. f_equal. now rewrite append_assoc.
  - rewrite append_assoc. simpl append.
    unfold Strings.IndexRune. rewrite (IndexByte_app_at pre _ "(" Hpre).
    rewrite len_app. reflexivity.
  - exact Hname.
Qed.

Lemma record_prefix_and_separator_ignored_witness :
  Refresh (oneProcess 5 "999 (cron)#S 1 5 5") (mkUnixProcess 5 0 0 0 0 "")
    = Done (mkUnixProcess 5 1 (byteVal "S") 5 5 "cron", None).
Proof.
  rewrite (record_prefix_and_separator_ignored
             (oneProcess 5 "999 (cron)#S 1 5 5") (mkUnixProcess 5 0 0 0 0 "")
             "999 " "cron" "S 1 5 5" "#"); reflexivity.
Defined.

(** X2. A record without an opening parenthesis is not rejected: the name
    is taken from the first byte of the record up to the first closing
    parenthesis, and the fields are scanned as usual. *)
Theorem record_without_opening_parenthesis (w : World) (p : UnixProcess)
  (name fields : string) (sep : ascii) :
  ReadFile w (statPath (pid p))
    = inl (name ++ String ")" (String sep fields))%string ->
  without "(" (name ++ String ")" (String sep fields)) = true ->
  without ")" name = true ->
  Refresh w p
    = Done (store (set_binary p name) (fst (Fmt.Sscanf_c_d_d_d fields)),
            snd (Fmt.Sscanf_c_d_d_d fields)).
Proof.
  intros Hread Hopen Hname.
  apply (Refresh_at w p "" name fields sep); [exact Hread | | exact Hname].
  simpl append. unfold Strings.IndexRune.
  apply IndexByte_without in Hopen. rewrite Hopen. reflexivity.
Qed.

Lemma record_without_opening_parenthesis_witness :
  Refresh (oneProcess 300 "300 sshd) S 1 300 300") (mkUnixProcess 300 0 0 0 0 "")
    = Done (mkUnixProcess 300 1 (byteVal "S") 300 300 "300 sshd", None).
Proof.
  rewrite (record_without_opening_parenthesis
             (oneProcess 300 "300 sshd) S 1 300 300")
             (mkUnixProcess 300 0 0 0 0 "") "300 sshd" "S 1 300 300" " ");
    reflexivity.
Defined.

(** X3. A record that stops less than two bytes after the closing
    parenthesis of the name: with nothing after the parenthesis [Refresh]
    panics (the fields would start beyond the end of the record); with one
    byte after it, the name is stored and the scan returns [io.EOF], with
    no field stored. *)
Theorem record_stopping_after_name (w : World) (p : UnixProcess)
  (pre name tail : string) :
  ReadFile w (statPath (pid p))
    = inl (pre ++ String "(" (name ++ String ")" tail)) ->
  without "(" pre = true ->
  without ")" name = true ->
  (String.length tail <= 1)%nat ->
  Refresh w p
    = match tail with
      | EmptyString => Panic SliceBounds
      | String _ _ => Done (set_binary p name, Some EOF)
      end.
Proof.
  intros Hread Hpre Hname Hlen.
  destruct tail as [|sep [|x tail]]; [| | simpl in Hlen; lia].
  - unfold Refresh. rewrite Hread. unfold Strings.IndexRune.
    rewrite (IndexByte_app_at pre _ "(" Hpre).
    replace (pre ++ String "(" (name ++ ")"))%string
      with ((pre ++ "(") ++ name ++ ")")%string
      by (rewrite append_assoc; reflexivity).
    replace (len pre + 1) with (len (pre ++ "(")) by (rewrite len_app; reflexivity).
    rewrite sliceFrom_app. simpl bind.
    rewrite (IndexByte_app_at name "" ")" Hname).
    rewrite slice_app. simpl bind.
    rewrite sliceFrom_beyond; [reflexivity|].
    rewrite !len_app. change (len ")") with 1. lia.
  - rewrite (Refresh_shape w p pre name "" sep Hread Hpre Hname).
    reflexivity.
Qed.

Lemma record_stopping_after_name_witness :
  Refresh (oneProcess 300 "300 (sshd)") (mkUnixProcess 300 0 0 0 0 "")
    = Panic SliceBounds
  /\ Refresh (oneProcess 300 "300 (sshd) ") (mkUnixProcess 300 0 0 0 0 "")
     = Done (mkUnixProcess 300 0 0 0 0 "sshd", Some EOF).
Proof.
  split.
  - rewrite (record_stopping_after_name (oneProcess 300 "300 (sshd)")
               (mkUnixProcess 300 0 0 0 0 "") "300 " "sshd" "");
      solve [reflexivity | simpl; lia].
  - rewrite (record_stopping_after_name (oneProcess 300 "300 (sshd) ")
               (mkUnixProcess 300 0 0 0 0 "") "300 " "sshd" " ");
      solve [reflexivity | simpl; lia].
Defined.

(** * More on lookup *)

(** X9. Whatever record lookup returns, with or without an error, carries
    the identifier that was asked for, and it is returned only after the
    existence probe succeeded. *)
Theorem lookup_record_has_requested_id (w : World) (n : Z) (p : UnixProcess)
  (err : option error) :
  FindProcess n w = Done (Some p, err) ->
  pid p = n /\ Stat w (procDir n) = None.
Proof.
  unfold FindProcess, findProcess.
  destruct (Stat w (procDir n)) as [e|].
  - destruct (IsNotExist e); discriminate.
  - destruct (newUnixProcess n w) as [[q err']| |] eqn:Hq; simpl; try discriminate.
    intros H. inversion H; subst. split; [|reflexivity].
    exact (newUnixProcess_pid w n p err Hq).
Qed.

Lemma lookup_record_has_requested_id_witness :
  pid (mkUnixProcess 300 0 (byteVal "S") 0 0 "sshd") = 300
  /\ Stat (oneProcess 300 "300 (sshd) S x 300 300") (procDir 300) = None.
Proof.
  apply (lookup_record_has_requested_id
           (oneProcess 300 "300 (sshd) S x 300 300") 300 _
           (Some (ErrScan "expected integer"))).
  vm_compute. reflexivity.
Defined.

(** X10. A process whose status record cannot be read (it vanished after
    it was listed or probed): lookup returns the read error next to a
    record that holds the identifier only, and the enumeration skips the
    entry. *)
Theorem vanished_process_is_skipped_and_reported (w : World) (n : Z) (e : error) :
  ReadFile w (statPath n) = inr e ->
  (Stat w (procDir n) = None ->
   FindProcess n w = Done (Some (mkUnixProcess n 0 0 0 0 ""), Some e))
  /\ (forall rs fi c,
        index0 (Name fi) = Done c ->
        Strconv.ParseInt (Name fi) 10 0 = (n, None) ->
        visit w rs fi = Done rs).
Proof.
  intros Hread.
  assert (Hnew : newUnixProcess n w = Done (mkUnixProcess n 0 0 0 0 "", Some e)).
  { unfold newUnixProcess, Refresh. simpl pid. now rewrite Hread. }
  split.
  - intros Hstat. unfold FindProcess, findProcess. now rewrite Hstat, Hnew.
  - intros rs fi c Hc Hparse.
    exact (visit_skips_failure w rs fi c n _ e Hc Hparse Hnew).
Qed.

Lemma vanished_process_is_skipped_and_reported_witness :
  FindProcess 7 vanishedRegistry = Done (Some (mkUnixProcess 7 0 0 0 0 ""), Some ErrNotExist)
  /\ visit vanishedRegistry [initRecord] (mkFileInfo "7" true) = Done [initRecord].
Proof.
  destruct (vanished_process_is_skipped_and_reported vanishedRegistry 7 ErrNotExist
              eq_refl) as [Hlookup Hvisit].
  split; [apply Hlookup; reflexivity|].
  apply (Hvisit [initRecord] (mkFileInfo "7" true) "7"%char); reflexivity.
Defined.

(** * The names the enumeration accepts *)

Section NameFilter.

Lemma decimalValue_grows (s : string) (n : Z) :
  allDigits s = true -> 0 <= n -> n <= decimalValue s n.
Proof.
  revert n. induction s as [|c s IH]; intros n Hs Hn; cbn [decimalValue]; [lia|].
  simpl in Hs. apply andb_true_iff in Hs as [Hc Hs].
  apply andb_true_iff in Hc as [H1 H2]. apply Z.leb_le in H1, H2.
  specialize (IH (10 * n + (byteVal c - 48)) Hs). lia.
Qed.

Lemma digitVal_digit (c : ascii) :
  (48 <=? byteVal c) && (byteVal c <=? 57) = true ->
  Strconv.digitVal c = Some (byteVal c - 48).
Proof. intros H. unfold Strconv.digitVal. now rewrite H. Qed.

(** The digit loop of [ParseUint] on decimal digits: the value, or a range
    error when the value does not fit 64 bits. *)
Lemma parseDigits_value (s : string) (n : Z) :
  allDigits s = true -> 0 <= n <= 18446744073709551615 ->
  Strconv.parseDigits 10 1844674407370955162 18446744073709551615 s n
  = if decimalValue s n <=? 18446744073709551615
    then (decimalValue s n, None)
    else (18446744073709551615, Some ErrRange).
Proof.
  revert n. induction s as [|c s IH]; intros n Hs Hn.
  - simpl. replace (n <=? 18446744073709551615) with true
      by (symmetry; apply Z.leb_le; lia).
    reflexivity.
  - simpl in Hs. apply andb_true_iff in Hs as [Hc Hs].
    pose proof Hc as Hc'. apply andb_true_iff in Hc' as [H1 H2].
    apply Z.leb_le in H1, H2.
    cbn [Strconv.parseDigits decimalValue]. rewrite (digitVal_digit c Hc).
    replace (10 <=? byteVal c - 48) with false by (symmetry; apply Z.leb_gt; lia).
    set (d := byteVal c - 48) in *.
    assert (Hd : 0 <= d <= 9) by (unfold d; lia).
    pose proof (decimalValue_grows s (10 * n + d) Hs ltac:(lia)) as Hgrow.
    destruct (Z.leb_spec 1844674407370955162 n) as [Hcut|Hcut].
    + replace (decimalValue s (10 * n + d) <=? 18446744073709551615) with false
        by (symmetry; apply Z.leb_gt; lia).
      reflexivity.
    + cbv zeta. rewrite (Z.mul_comm n 10).
      change (2 ^ 64) with 18446744073709551616.
      destruct (Z.le_gt_cases (10 * n + d) 18446744073709551615) as [Hfit|Hover].
      * rewrite Z.mod_small by lia.
        replace ((10 * n + d <? 10 * n) || (18446744073709551615 <? 10 * n + d))
          with false
          by (symmetry; apply orb_false_iff; split; apply Z.ltb_ge; lia).
        apply IH; [exact Hs | lia].
      * replace ((10 * n + d) mod 18446744073709551616)
          with (10 * n + d - 18446744073709551616)
          by (apply Z.mod_unique with 1; lia).
        replace (10 * n + d - 18446744073709551616 <? 10 * n) with true
          by (symmetry; apply Z.ltb_lt; lia).
        replace (decimalValue s (10 * n + d) <=? 18446744073709551615) with false
          by (symmetry; apply Z.leb_gt; lia).
        reflexivity.
Qed.

(** [ParseInt] in base ten on a decimal numeral: its value if that fits an
    [int], a range error otherwise. *)
Lemma ParseInt_digits (s : string) :
  allDigits s = true -> s <> "" ->
  Strconv.ParseInt s 10 0
  = if decimalValue s 0 <? 2 ^ 63
    then (decimalValue s 0, None)
    else (2 ^ 63 - 1, Some ErrRange).
Proof.
  intros Hs Hne. destruct s as [|c t]; [congruence|].
  destruct (digits_not_sign _ c t Hs eq_refl) as [Hplus Hminus].
  unfold Strconv.ParseInt. rewrite Hplus, Hminus. simpl orb. cbv iota.
  unfold Strconv.ParseUint.
  change (Strconv.maxUint64 / 10 + 1) with 1844674407370955162.
  change (2 ^ (if 0 =? 0 then Strconv.IntSize else 0) - 1)
    with 18446744073709551615.
  rewrite (parseDigits_value (String c t) 0 Hs) by lia.
  change (2 ^ ((if 0 =? 0 then Strconv.IntSize else 0) - 1))
    with 9223372036854775808.
  change (2 ^ 63) with 9223372036854775808.
  pose proof (decimalValue_grows (String c t) 0 Hs ltac:(lia)) as Hpos.
  destruct (Z.leb_spec (decimalValue (String c t) 0) 18446744073709551615)
    as [Hfit|Hover].
  - cbn [negb andb].
    destruct (Z.ltb_spec (decimalValue (String c t) 0) 9223372036854775808).
    + replace (9223372036854775808 <=? decimalValue (String c t) 0) with false
        by (symmetry; apply Z.leb_gt; lia).
      reflexivity.
    + replace (9223372036854775808 <=? decimalValue (String c t) 0) with true
        by (symmetry; apply Z.leb_le; lia).
      reflexivity.
  - replace (decimalValue (String c t) 0 <? 9223372036854775808) with false
      by (symmetry; apply Z.ltb_ge; lia).
    reflexivity.
Qed.

End NameFilter.

(** X11. Which registry entries the enumeration reads: an entry with a
    process number (a directory whose name is a decimal numeral that fits
    an [int]) is parsed and its record appended when there is no error;
    every other entry with a name is skipped, among them a numeral beyond
    the range of [int]. *)
Theorem visit_follows_process_number (w : World) (rs : list UnixProcess)
  (fi : FileInfo) :
  Name fi <> "" ->
  visit w rs fi
  = match processNumber fi with
    | Some n => collect w rs n
    | None => Done rs
    end.
Proof.
  intros Hne. unfold visit, processNumber.
  destruct (IsDir fi); [|reflexivity]. cbn [negb andb].
  destruct (Name fi) as [|c t] eqn:Hname; [congruence|].
  cbn [index0 bind].
  destruct ((byteVal c <? 48) || (57 <? byteVal c)) eqn:Hfirst.
  - replace (allDigits (String c t)) with false; [reflexivity|].
    symmetry. simpl. apply andb_false_iff. left.
    apply orb_true_iff in Hfirst as [H | H]; apply Z.ltb_lt in H;
      apply andb_false_iff; [left | right]; apply Z.leb_gt; lia.
  - destruct (allDigits (String c t)) eqn:Hdigits.
    + rewrite (ParseInt_digits (String c t) Hdigits) by discriminate.
      cbn [andb].
      destruct (decimalValue (String c t) 0 <? 2 ^ 63); reflexivity.
    + cbn [andb].
      destruct (Strconv.ParseInt (String c t) 10 0) as [v [e|]] eqn:Hparse;
        [reflexivity|].
      rewrite (ParseInt_decimal (String c t) c v eq_refl Hfirst Hparse) in Hdigits.
      discriminate.
Qed.

Lemma visit_follows_process_number_witness :
  visit (scenario true true) [] (mkFileInfo "300" true) = Done [sshdRecord]
  /\ visit (scenario true true) [] (mkFileInfo "42abc" true) = Done []
  /\ visit (scenario true true) [] (mkFileInfo "9223372036854775808" true) = Done [].
Proof.
  assert (Hne : forall fi, String.length (Name fi) <> 0%nat -> Name fi <> "")
    by (intros fi H E; rewrite E in H; now apply H).
  split; [|split].
  - rewrite (visit_follows_process_number (scenario true true) []
               (mkFileInfo "300" true)) by (apply Hne; discriminate).
    vm_compute. reflexivity.
  - rewrite (visit_follows_process_number (scenario true true) []
               (mkFileInfo "42abc" true)) by (apply Hne; discriminate).
    vm_compute. reflexivity.
  - rewrite (visit_follows_process_number (scenario true true) []
               (mkFileInfo "9223372036854775808" true)) by (apply Hne; discriminate).
    vm_compute. reflexivity.
Defined.

(** * The structure of a snapshot *)

Section SnapshotStructure.

Variable w : World.

Lemma bind_assoc {A B C : Type} (m : outcome A) (f : A -> outcome B)
  (g : B -> outcome C) :
  bind (bind m f) g = bind m (fun a => bind (f a) g).
Proof. destruct m; reflexivity. Qed.

(** [visit] only appends to the collection. *)
Lemma visit_appends (rs : list UnixProcess) (fi : FileInfo) :
  visit w rs fi = (l <- visit w [] fi ;; Done (rs ++ l)%list).
Proof.
  unfold visit. destruct (IsDir fi); simpl; [|now rewrite List.app_nil_r].
  destruct (index0 (Name fi)) as [c| |]; simpl; try reflexivity.
  destruct ((byteVal c <? 48) || (57 <? byteVal c)); simpl;
    [now rewrite List.app_nil_r|].
  destruct (Strconv.ParseInt (Name fi) 10 0) as [n [e|]]; simpl;
    [now rewrite List.app_nil_r|].
  destruct (newUnixProcess n w) as [[p [e|]]| |]; simpl;
    try reflexivity; now rewrite List.app_nil_r.
Qed.

Lemma rangeOver_appends (fis : list FileInfo) (rs : list UnixProcess) :
  rangeOver w rs fis = (l <- rangeOver w [] fis ;; Done (rs ++ l)%list).
Proof.
  revert rs. induction fis as [|fi fis IH]; intros rs; simpl;
    [now rewrite List.app_nil_r|].
  rewrite (visit_appends rs fi), !bind_assoc.
  destruct (visit w [] fi) as [l1| |]; simpl; try reflexivity.
  rewrite (IH (rs ++ l1)%list), (IH l1), bind_assoc.
  destruct (rangeOver w [] fis) as [l2| |]; simpl; try reflexivity.
  now rewrite List.app_assoc.
Qed.

Lemma rangeOver_app (a b : list FileInfo) (rs : list UnixProcess) :
  rangeOver w rs (a ++ b) = (rs' <- rangeOver w rs a ;; rangeOver w rs' b).
Proof.
  revert rs. induction a as [|fi a IH]; intros rs; simpl; [reflexivity|].
  rewrite bind_assoc. destruct (visit w rs fi); simpl; auto.
Qed.

(** The loop over the batches is the loop over all entries at once. *)
Lemma readAll_flat (d : Dir) (rs : list UnixProcess) :
  readAll w d rs
  = (rs' <- rangeOver w rs (entries d) ;; readAll w (ReadErr (lastError d)) rs').
Proof.
  revert rs. induction d as [e | fis rest IH]; intros rs; [reflexivity|].
  cbn [readAll entries lastError]. rewrite rangeOver_app, bind_assoc.
  destruct (rangeOver w rs fis) as [rs1| |]; simpl; auto.
Qed.

Lemma rangeOver_grows (fis : list FileInfo) (rs rs' : list UnixProcess) :
  rangeOver w rs fis = Done rs' -> exists l, rs' = (rs ++ l)%list.
Proof.
  rewrite rangeOver_appends.
  destruct (rangeOver w [] fis) as [l| |]; simpl; try discriminate.
  intros H. inversion H. eauto.
Qed.

(** The record of an entry is what [visit] appends for it. *)
Lemma visit_recordOf (rs : list UnixProcess) (fi : FileInfo) (p : UnixProcess) :
  recordOf w fi p -> visit w rs fi = Done (rs ++ [p])%list.
Proof.
  intros (Hdir & Hne & Hdigits & Hparse & Hnew). unfold visit.
  rewrite Hdir. cbn [negb].
  destruct (Name fi) as [|c t] eqn:Hname; [congruence|].
  cbn [index0 bind]. simpl in Hdigits.
  apply andb_true_iff in Hdigits as [Hc _].
  apply andb_true_iff in Hc as [H1 H2]. apply Z.leb_le in H1, H2.
  replace ((byteVal c <? 48) || (57 <? byteVal c)) with false
    by (symmetry; apply orb_false_iff; split; apply Z.ltb_ge; lia).
  rewrite Hparse, Hnew. reflexivity.
Qed.

Lemma rangeOver_complete (fis : list FileInfo) (rs rs' : list UnixProcess)
  (fi : FileInfo) (p : UnixProcess) :
  rangeOver w rs fis = Done rs' ->
  In fi fis -> recordOf w fi p -> In p rs'.
Proof.
  revert rs. induction fis as [|x fis IH]; intros rs Hrange Hin Hrec;
    [destruct Hin|].
  simpl in Hrange.
  destruct (visit w rs x) as [rs1| |] eqn:Hv; simpl in Hrange; try discriminate.
  destruct Hin as [-> | Hin].
  - rewrite (visit_recordOf rs fi p Hrec) in Hv. inversion Hv; subst rs1.
    destruct (rangeOver_grows _ _ _ Hrange) as (l & ->).
    apply in_or_app. left. apply in_or_app. right. now left.
  - eapply IH; eassumption.
Qed.

Lemma rangeOver_subseq (fis : list FileInfo) (l : list UnixProcess) :
  rangeOver w [] fis = Done l ->
  exists fis', subseq fis' fis /\ Forall2 (recordOf w) fis' l.
Proof.
  revert l. induction fis as [|fi fis IH]; intros l; simpl.
  - intros H. inversion H. exists []. split; constructor.
  - destruct (visit w [] fi) as [l1| |] eqn:Hv; simpl; try discriminate.
    rewrite rangeOver_appends.
    destruct (rangeOver w [] fis) as [l2| |] eqn:Hr; simpl; try discriminate.
    intros H. inversion H; subst l.
    destruct (IH l2 eq_refl) as (fis' & Hsub & Hall).
    destruct (visit_cases w [] l1 fi Hv) as [-> | (p & -> & Hp)].
    + exists fis'. split; [now constructor | exact Hall].
    + exists (fi :: fis'). split; [now constructor|].
      simpl. constructor; assumption.
Qed.

(** Neither the parser nor the enumeration ends the program by
    [os.Exit]. *)
Lemma slice_no_exit (s : string) (lo hi c : Z) : slice s lo hi <> Exit c.
Proof. unfold slice. destruct (_ && _); discriminate. Qed.

Lemma Refresh_no_exit (p : UnixProcess) (c : Z) : Refresh w p <> Exit c.
Proof.
  unfold Refresh. destruct (ReadFile w _) as [data|e]; [|discriminate].
  destruct (sliceFrom data _) as [tail| |] eqn:H1; cbn [bind];
    [| discriminate | now apply slice_no_exit in H1].
  destruct (slice data _ _) as [bin| |] eqn:H2; cbn [bind];
    [| discriminate | now apply slice_no_exit in H2].
  destruct (sliceFrom data (_ + 2)) as [rest| |] eqn:H3; cbn [bind];
    [| discriminate | now apply slice_no_exit in H3].
  destruct (Fmt.Sscanf_c_d_d_d rest). discriminate.
Qed.

Lemma visit_no_exit (rs : list UnixProcess) (fi : FileInfo) (c : Z) :
  visit w rs fi <> Exit c.
Proof.
  unfold visit. destruct (IsDir fi); simpl; [|discriminate].
  destruct (index0 (Name fi)) as [ch| |] eqn:Hc; simpl; try discriminate.
  - destruct ((byteVal ch <? 48) || (57 <? byteVal ch)); [discriminate|].
    destruct (Strconv.ParseInt (Name fi) 10 0) as [n [e|]]; [discriminate|].
    destruct (newUnixProcess n w) as [[p [e|]]| |] eqn:Hn; simpl;
      try discriminate.
    now apply Refresh_no_exit in Hn.
  - destruct (Name fi); discriminate.
Qed.

Lemma rangeOver_no_exit (fis : list FileInfo) (rs : list UnixProcess) (c : Z) :
  rangeOver w rs fis <> Exit c.
Proof.
  revert rs. induction fis as [|fi fis IH]; intros rs; simpl; [discriminate|].
  destruct (visit w rs fi) as [rs1| |] eqn:Hv; simpl;
    [apply IH | discriminate | now apply visit_no_exit in Hv].
Qed.

Lemma Processes_no_exit (c : Z) : Processes w <> Exit c.
Proof.
  unfold Processes, processes. destruct (Open w "/proc") as [d|e]; [|discriminate].
  rewrite readAll_flat.
  destruct (rangeOver w [] (entries d)) as [rs| |] eqn:Hr; simpl;
    [| discriminate | now apply rangeOver_no_exit in Hr].
  destruct (isEOF (lastError d)); discriminate.
Qed.

End SnapshotStructure.

(** X12. The batches in which [Readdir] delivers the entries do not
    matter: the snapshot is the entries of the whole listing visited in
    order, and the error that ends the listing decides between the
    collection ([io.EOF]) and the error alone (any other error). *)
Theorem snapshot_is_fold_over_entries (w : World) (d : Dir) :
  Open w "/proc" = inl d ->
  Processes w
  = (rs <- rangeOver w [] (entries d) ;;
     if isEOF (lastError d) then Done (Some rs, None)
     else Done (None, Some (lastError d))).
Proof.
  intros Hopen. unfold Processes, processes. rewrite Hopen.
  apply readAll_flat.
Qed.

Lemma snapshot_is_fold_over_entries_witness :
  Processes failingRegistry
  = (rs <- rangeOver failingRegistry [] [mkFileInfo "1" true] ;;
     Done (None, Some ErrIO)).
Proof.
  apply (snapshot_is_fold_over_entries failingRegistry
           (ReadBatch [mkFileInfo "1" true] (ReadErr ErrIO))).
  reflexivity.
Defined.

(** X13. A snapshot holds exactly the records of the listed entries: a
    record is in the collection if and only if some entry of the listing
    is a directory with a decimal name whose status record parsed without
    error into that record.  So an entry that fails (vanished, malformed
    number) is left out and every other process is still there. *)
Theorem snapshot_holds_exactly_listed_records (w : World) (d : Dir)
  (rs : list UnixProcess) :
  Open w "/proc" = inl d ->
  Processes w = Done (Some rs, None) ->
  forall p, In p rs <-> exists fi, In fi (entries d) /\ recordOf w fi p.
Proof.
  intros Hopen Hsnap p. unfold Processes, processes in Hsnap.
  rewrite Hopen in Hsnap. split.
  - intros Hin.
    destruct (readAll_cases w d [] rs Hsnap p Hin) as [[] | H]. exact H.
  - intros (fi & Hfi & Hrec). rewrite readAll_flat in Hsnap.
    destruct (rangeOver w [] (entries d)) as [rs1| |] eqn:Hr;
      simpl in Hsnap; try discriminate.
    destruct (isEOF (lastError d)); inversion Hsnap; subst rs1.
    exact (rangeOver_complete w _ _ _ fi p Hr Hfi Hrec).
Qed.

Lemma snapshot_holds_exactly_listed_records_witness :
  In initRecord [initRecord] <->
  exists fi, In fi (entries (listing 2 [mkFileInfo "1" true; mkFileInfo "7" true]))
             /\ recordOf vanishedRegistry fi initRecord.
Proof.
  apply (snapshot_holds_exactly_listed_records vanishedRegistry
           (listing 2 [mkFileInfo "1" true; mkFileInfo "7" true]) [initRecord]).
  - reflexivity.
  - vm_compute. reflexivity.
Defined.

(** X14. A snapshot keeps the order of the listing and has at most one
    record per entry: its records are, one by one and in order, the
    records of a sub-sequence of the listed entries. *)
Theorem snapshot_keeps_listing_order (w : World) (d : Dir) (rs : list UnixProcess) :
  Open w "/proc" = inl d ->
  Processes w = Done (Some rs, None) ->
  exists fis, subseq fis (entries d) /\ Forall2 (recordOf w) fis rs.
Proof.
  intros Hopen Hsnap. unfold Processes, processes in Hsnap.
  rewrite Hopen, readAll_flat in Hsnap.
  destruct (rangeOver w [] (entries d)) as [rs1| |] eqn:Hr;
    simpl in Hsnap; try discriminate.
  destruct (isEOF (lastError d)); inversion Hsnap; subst rs1.
  exact (rangeOver_subseq w _ _ Hr).
Qed.

Lemma snapshot_keeps_listing_order_witness :
  exists fis,
    subseq fis (entries (listing 5 [mkFileInfo "1" true; mkFileInfo "2" true;
                                    mkFileInfo "self" false;
                                    mkFileInfo "42abc" true;
                                    mkFileInfo "300" true]))
    /\ Forall2 (recordOf (scenario false true)) fis
               [initRecord; kthreaddRecord; sshdRecord].
Proof.
  apply (snapshot_keeps_listing_order (scenario false true)).
  - reflexivity.
  - vm_compute. reflexivity.
Defined.

(** X15. The snapshot returns an error exactly when the registry cannot
    be opened, or when every listed entry was visited and the listing
    ended with an error other than [io.EOF]; there is never a collection
    next to the error. *)
Theorem snapshot_error_iff (w : World) (res : option (list UnixProcess)) (e : error) :
  Processes w = Done (res, Some e)
  <-> res = None
      /\ (Open w "/proc" = inr e
          \/ exists d rs, Open w "/proc" = inl d
                          /\ rangeOver w [] (entries d) = Done rs
                          /\ lastError d = e /\ isEOF e = false).
Proof.
  unfold Processes, processes. destruct (Open w "/proc") as [d|e0] eqn:Hopen.
  - rewrite readAll_flat. split.
    + destruct (rangeOver w [] (entries d)) as [rs| |] eqn:Hr; simpl;
        try discriminate.
      destruct (isEOF (lastError d)) eqn:Heof; intros H; inversion H; subst.
      split; [reflexivity|]. right. exists d, rs. auto.
    + intros (-> & [H | (d' & rs & Hd & Hr & <- & Heof)]); [discriminate|].
      inversion Hd; subst d'. rewrite Hr. simpl. now rewrite Heof.
  - split.
    + intros H. inversion H; subst. auto.
    + intros (-> & [H | (d' & rs & Hd & _)]); [|discriminate].
      inversion H. reflexivity.
Qed.

(** * What lookup returns *)

(** X8. Lookup answers "no record, no error" exactly when the existence
    probe says that the process directory does not exist.  When the probe
    succeeds, lookup hands on what [newUnixProcess] gives: its record
    together with its error (never the record dropped), or its panic. *)
Theorem lookup_absent_iff_not_exist (w : World) (n : Z) :
  (FindProcess n w = Done (None, None)
   <-> exists e, Stat w (procDir n) = Some e /\ IsNotExist e = true)
  /\ (Stat w (procDir n) = None ->
      (exists p err, newUnixProcess n w = Done (p, err)
                     /\ FindProcess n w = Done (Some p, err))
      \/ (exists why, newUnixProcess n w = Panic why
                      /\ FindProcess n w = Panic why)).
Proof.
  unfold FindProcess, findProcess. split; [split|].
  - destruct (Stat w (procDir n)) as [e|] eqn:Hs.
    + destruct (IsNotExist e) eqn:He; [intros _; eauto | discriminate].
    + destruct (newUnixProcess n w) as [[p err]| |]; simpl; discriminate.
  - intros (e & -> & ->). reflexivity.
  - intros ->.
    destruct (newUnixProcess n w) as [[p err]|why|c] eqn:Hnew; simpl.
    + left. exists p, err. auto.
    + right. exists why. auto.
    + exfalso. exact (Refresh_no_exit w _ c Hnew).
Qed.

Lemma lookup_absent_iff_not_exist_witness :
  (exists p err,
      newUnixProcess 300 (oneProcess 300 "300 (sshd) S x 300 300") = Done (p, err)
      /\ FindProcess 300 (oneProcess 300 "300 (sshd) S x 300 300")
         = Done (Some p, err))
  \/ (exists why,
        newUnixProcess 300 (oneProcess 300 "300 (sshd) S x 300 300") = Panic why
        /\ FindProcess 300 (oneProcess 300 "300 (sshd) S x 300 300") = Panic why).
Proof.
  apply (proj2 (lookup_absent_iff_not_exist
                  (oneProcess 300 "300 (sshd) S x 300 300") 300)).
  reflexivity.
Defined.

(** * Lookup and snapshot together *)

Section Agreement.

Variable w : World.

Lemma ParseInt_int_size (s : string) :
  Strconv.ParseInt s 10 0 = Strconv.ParseInt s 10 64.
Proof. reflexivity. Qed.

Lemma FormatInt_nonneg_digits (n : Z) :
  0 <= n -> allDigits (Strconv.FormatInt n) = true /\ Strconv.FormatInt n <> "".
Proof.
  intros Hn. unfold Strconv.FormatInt.
  destruct n as [|q|q]; [split; [reflexivity | discriminate] | | lia].
  simpl Z.to_int. simpl NilZero.string_of_int.
  split; [apply numeral_digits | apply numeral_nonempty].
Qed.

(** The entry named by the decimal text of [n] has the record that
    [newUnixProcess n] builds. *)
Lemma recordOf_numbered_entry (n : Z) (p : UnixProcess) :
  0 <= n < 2 ^ 63 ->
  newUnixProcess n w = Done (p, None) ->
  recordOf w (mkFileInfo (Strconv.FormatInt n) true) p.
Proof.
  intros Hn Hnew. pose proof (newUnixProcess_pid w n p None Hnew) as Hpid.
  destruct (FormatInt_nonneg_digits n ltac:(lia)) as [Hdigits Hne].
  unfold recordOf. cbn [IsDir Name]. rewrite Hpid.
  repeat split; try assumption.
  rewrite ParseInt_int_size. apply ParseInt_FormatInt. lia.
Qed.

End Agreement.

(** X16. Lookup and snapshot agree.  Every record of a snapshot is what
    lookup returns for its identifier (when the existence probe
    succeeds); and when lookup returns a record without error for an
    identifier whose directory is listed, that record is in the
    snapshot. *)
Theorem lookup_and_snapshot_agree (w : World) (d : Dir) (rs : list UnixProcess) :
  Open w "/proc" = inl d ->
  Processes w = Done (Some rs, None) ->
  (forall p, In p rs ->
             Stat w (procDir (pid p)) = None ->
             FindProcess (pid p) w = Done (Some p, None))
  /\ (forall n p, 0 <= n < 2 ^ 63 ->
                  In (mkFileInfo (Strconv.FormatInt n) true) (entries d) ->
                  FindProcess n w = Done (Some p, None) ->
                  In p rs).
Proof.
  intros Hopen Hsnap. split.
  - intros p Hin Hstat. unfold Processes, processes in Hsnap.
    rewrite Hopen in Hsnap.
    destruct (readAll_cases w d [] rs Hsnap p Hin) as [[] | (fi & _ & Hrec)].
    destruct Hrec as (_ & _ & _ & _ & Hnew).
    unfold FindProcess, findProcess. now rewrite Hstat, Hnew.
  - intros n p Hn Hlisted Hlookup.
    assert (Hnew : newUnixProcess n w = Done (p, None)).
    { unfold FindProcess, findProcess in Hlookup.
      destruct (Stat w (procDir n)) as [e|].
      - destruct (IsNotExist e); discriminate.
      - destruct (newUnixProcess n w) as [[q err]| |]; simpl in Hlookup;
          try discriminate.
        now inversion Hlookup. }
    pose proof (recordOf_numbered_entry w n p Hn Hnew) as Hrec.
    unfold Processes, processes in Hsnap. rewrite Hopen, readAll_flat in Hsnap.
    destruct (rangeOver w [] (entries d)) as [rs1| |] eqn:Hr;
      simpl in Hsnap; try discriminate.
    destruct (isEOF (lastError d)); inversion Hsnap; subst rs1.
    exact (rangeOver_complete w _ _ _ _ p Hr Hlisted Hrec).
Qed.

Lemma lookup_and_snapshot_agree_witness :
  FindProcess 300 (scenario false true) = Done (Some sshdRecord, None)
  /\ In kthreaddRecord [initRecord; kthreaddRecord; sshdRecord].
Proof.
  destruct (lookup_and_snapshot_agree (scenario false true)
              (listing 5 [mkFileInfo "1" true; mkFileInfo "2" true;
                          mkFileInfo "self" false; mkFileInfo "42abc" true;
                          mkFileInfo "300" true])
              [initRecord; kthreaddRecord; sshdRecord])
    as [Hto Hfrom].
  - reflexivity.
  - vm_compute. reflexivity.
  - split.
    + apply (Hto sshdRecord); [simpl; auto | reflexivity].
    + apply (Hfrom 2 kthreaddRecord).
      * split; [discriminate | reflexivity].
      * simpl. auto.
      * vm_compute. reflexivity.
Defined.

(** * More on the command line *)

Section CommandLineOutcomes.

Variable w : World.

Lemma findMatch_firstMatch (run : list UnixProcess) (target : string) :
  findMatch run target
  = match firstMatch run target with
    | Some _ => Exit OK
    | None => Done tt
    end.
Proof.
  induction run as [|i run IH]; [reflexivity|].
  cbn [findMatch firstMatch].
  change (Executable i) with (binary i). change (PPid i) with (ppid i).
  destruct (String.eqb (binary i) target && (ppid i =? 1)); [reflexivity | exact IH].
Qed.

Lemma findMatchT_firstMatch (run : list UnixProcess) (target : string) :
  findMatchT run target
  = match firstMatch run target with
    | Some p => ([ProcessExist (binary p) (pid p)], Exit OK)
    | None => ([], Done tt)
    end.
Proof.
  induction run as [|i run IH]; [reflexivity|].
  cbn [findMatchT firstMatch].
  change (Executable i) with (binary i). change (PPid i) with (ppid i).
  destruct (String.eqb (binary i) target && (ppid i =? 1)); [reflexivity | exact IH].
Qed.

(** The first match is a record of the run with the wanted name and the
    parent 1, and no record before it is one. *)
Lemma firstMatch_Some (run : list UnixProcess) (target : string) (p : UnixProcess) :
  firstMatch run target = Some p ->
  exists before after,
    run = (before ++ p :: after)%list
    /\ binary p = target /\ ppid p = 1
    /\ forall q, In q before -> ~ (binary q = target /\ ppid q = 1).
Proof.
  induction run as [|i run IH]; [discriminate|].
  cbn [firstMatch].
  destruct (String.eqb (binary i) target && (ppid i =? 1)) eqn:E.
  - intros H. inversion H; subst i.
    apply andb_true_iff in E as [E1 E2].
    apply String.eqb_eq in E1. apply Z.eqb_eq in E2.
    exists [], run. repeat split; try assumption. intros q [].
  - intros H. destruct (IH H) as (before & after & -> & Hn & Hp & Hnone).
    exists (i :: before), after. repeat split; try assumption.
    intros q [<- | Hq]; [|now apply Hnone].
    intros [H1 H2]. rewrite H1, H2, String.eqb_refl in E. discriminate.
Qed.

Lemma firstMatch_None (run : list UnixProcess) (target : string) :
  firstMatch run target = None ->
  forall q, In q run -> ~ (binary q = target /\ ppid q = 1).
Proof.
  induction run as [|i run IH]; [intros _ q []|].
  cbn [firstMatch].
  destruct (String.eqb (binary i) target && (ppid i =? 1)) eqn:E; [discriminate|].
  intros H q [<- | Hq]; [|now apply IH].
  intros [H1 H2]. rewrite H1, H2, String.eqb_refl in E. discriminate.
Qed.

(** A command line is valid for its third argument, or it is a usage
    error. *)
Lemma args_cases (args : list string) :
  (exists target, validArgs args target)
  \/ (forall prog target, args = [prog; "-c"; target] -> target = "").
Proof.
  destruct args as [|a0 [|a1 [|a2 [|a3 rest]]]];
    try (right; intros prog target H; discriminate).
  destruct (String.eqb_spec a1 "-c") as [-> | Hne].
  - destruct (String.eqb_spec a2 "") as [-> | Hne2].
    + right. intros prog target H. now inversion H.
    + left. exists a2, a0. auto.
  - right. intros prog target H. inversion H. congruence.
Qed.

Lemma mainT_usage_error (args : list string) :
  (forall prog target, args = [prog; "-c"; target] -> target = "") ->
  mainT args w = ([Usage], Exit UNKNOWN).
Proof.
  intros Hbad. unfold mainT, CommandT.
  destruct args as [|a0 [|a1 [|a2 [|a3 rest]]]]; try reflexivity.
  cbn [List.length Nat.eqb negb indexArg nth_error quiet bindT app].
  destruct (String.eqb_spec a1 "-c") as [-> | Hne]; [|reflexivity].
  cbn [negb bindT quiet app]. rewrite (Hbad a0 a2 eq_refl). reflexivity.
Qed.

Lemma mainT_valid (prog target : string) :
  target <> "" ->
  mainT [prog; "-c"; target] w
  = match Processes w with
    | Done (_, Some e) => ([ErrorLine e], Exit UNKNOWN)
    | Done (run, None) =>
        match firstMatch (elems run) target with
        | Some p => ([ProcessExist (binary p) (pid p)], Exit OK)
        | None => ([ProcessDoNotExist target], Exit CRITICAL)
        end
    | Panic why => ([], Panic why)
    | Exit c => ([], Exit c)
    end.
Proof.
  intros Hne. apply String.eqb_neq in Hne. unfold mainT, CommandT.
  cbn [List.length Nat.eqb negb indexArg nth_error quiet bindT app].
  change (String.eqb "-c" "-c") with true.
  cbn [negb bindT quiet app]. rewrite Hne. cbn [bindT quiet app].
  destruct (Processes w) as [[run [e|]]| |]; try reflexivity.
  cbn [bindT quiet app print]. rewrite findMatchT_firstMatch.
  destruct (firstMatch (elems run) target); reflexivity.
Qed.

(** Leaving out what is printed gives [main]. *)
Lemma mainT_outcome (args : list string) : snd (mainT args w) = main args w.
Proof.
  destruct (args_cases args) as [(target & prog & -> & Hne) | Hbad].
  - rewrite (mainT_valid prog target Hne). unfold main.
    rewrite (Command_valid w prog target Hne).
    destruct (Processes w) as [[run [e|]]| |]; try reflexivity.
    cbn [bind]. rewrite findMatch_firstMatch.
    destruct (firstMatch (elems run) target); reflexivity.
  - now rewrite (mainT_usage_error args Hbad), (main_usage_error w args Hbad).
Qed.

End CommandLineOutcomes.

(** X17. The program never returns from [main] normally and never exits
    with the code 1: a run ends with the exit code 0, 2 or 3, or, on a
    valid command line only, with the panic of the enumeration. *)
Theorem main_ends_with_0_2_3_or_panics (w : World) (args : list string) :
  (main args w = Exit 0 \/ main args w = Exit 2 \/ main args w = Exit 3)
  \/ (exists why target,
        validArgs args target /\ Processes w = Panic why
        /\ main args w = Panic why).
Proof.
  rewrite <- (mainT_outcome w args).
  destruct (args_cases args) as [(target & prog & -> & Hne) | Hbad].
  - rewrite (mainT_valid w prog target Hne).
    destruct (Processes w) as [[run [e|]]|why|c] eqn:Hsnap.
    + left. right. right. reflexivity.
    + left. destruct (firstMatch (elems run) target); auto.
    + right. exists why, target. repeat split; try reflexivity.
      exists prog. auto.
    + exfalso. exact (Processes_no_exit w c Hsnap).
  - left. right. right. now rewrite (mainT_usage_error w args Hbad).
Qed.

(** X18. Every run that ends by an exit has printed exactly one message,
    and the message tells the exit code: with 0 the name and the
    identifier of the first record of the snapshot that has the target
    name and the parent 1; with 2 that the target does not exist; with 3
    the usage (when the command line is not valid) or the error of the
    enumeration. *)
Theorem main_prints_one_message (w : World) (args : list string)
  (out : list printed) (c : Z) :
  mainT args w = (out, Exit c) ->
  (c = 0 /\ exists target run p before after,
       validArgs args target
       /\ Processes w = Done (run, None)
       /\ elems run = (before ++ p :: after)%list
       /\ binary p = target /\ ppid p = 1
       /\ (forall q, In q before -> ~ (binary q = target /\ ppid q = 1))
       /\ out = [ProcessExist (binary p) (pid p)])
  \/ (c = 2 /\ exists target run,
       validArgs args target
       /\ Processes w = Done (run, None)
       /\ (forall q, In q (elems run) -> ~ (binary q = target /\ ppid q = 1))
       /\ out = [ProcessDoNotExist target])
  \/ (c = 3 /\ ((out = [Usage] /\ ~ exists target, validArgs args target)
                \/ exists target res e,
                     validArgs args target
                     /\ Processes w = Done (res, Some e)
                     /\ out = [ErrorLine e])).
Proof.
  destruct (args_cases args) as [(target & prog & -> & Hne) | Hbad].
  - assert (Hvalid : validArgs [prog; "-c"; target] target)
      by (exists prog; auto).
    rewrite (mainT_valid w prog target Hne).
    destruct (Processes w) as [[run [e|]]|why|c'] eqn:Hsnap.
    + intros H. inversion H; subst. right. right.
      split; [reflexivity|]. right. exists target, run, e. auto.
    + destruct (firstMatch (elems run) target) as [p|] eqn:Hfirst.
      * intros H. inversion H; subst. left. split; [reflexivity|].
        destruct (firstMatch_Some _ _ _ Hfirst)
          as (before & after & Hrun & Hname & Hparent & Hnone).
        exists target, run, p, before, after.
        repeat split; try assumption; try reflexivity.
      * intros H. inversion H; subst. right. left. split; [reflexivity|].
        exists target, run. repeat split; try assumption.
        exact (firstMatch_None _ _ Hfirst).
    + discriminate.
    + exfalso. exact (Processes_no_exit w c' Hsnap).
  - rewrite (mainT_usage_error w args Hbad). intros H. inversion H; subst.
    right. right. split; [reflexivity|]. left. split; [reflexivity|].
    intros (target & prog & Hargs & Hne). apply Hne.
    exact (Hbad prog target Hargs).
Qed.

Lemma main_prints_one_message_witness :
  mainT ["check_proc"; "-c"; "sshd"] (scenario false false)
    = ([ProcessExist "sshd" 300], Exit 0)
  /\ ((0 = 0 /\ exists target run p before after,
         validArgs ["check_proc"; "-c"; "sshd"] target
         /\ Processes (scenario false false) = Done (run, None)
         /\ elems run = (before ++ p :: after)%list
         /\ binary p = target /\ ppid p = 1
         /\ (forall q, In q before -> ~ (binary q = target /\ ppid q = 1))
         /\ [ProcessExist "sshd" 300] = [ProcessExist (binary p) (pid p)])
      \/ (0 = 2 /\ exists target run,
         validArgs ["check_proc"; "-c"; "sshd"] target
         /\ Processes (scenario false false) = Done (run, None)
         /\ (forall q, In q (elems run) -> ~ (binary q = target /\ ppid q = 1))
         /\ [ProcessExist "sshd" 300] = [ProcessDoNotExist target])
      \/ (0 = 3 /\ (([ProcessExist "sshd" 300] = [Usage]
                     /\ ~ exists target, validArgs ["check_proc"; "-c"; "sshd"] target)
                    \/ exists target res e,
                         validArgs ["check_proc"; "-c"; "sshd"] target
                         /\ Processes (scenario false false) = Done (res, Some e)
                         /\ [ProcessExist "sshd" 300] = [ErrorLine e]))).
Proof.
  assert (Hrun : mainT ["check_proc"; "-c"; "sshd"] (scenario false false)
                 = ([ProcessExist "sshd" 300], Exit 0))
    by (vm_compute; reflexivity).
  split; [exact Hrun|].
  exact (main_prints_one_message (scenario false false)
           ["check_proc"; "-c"; "sshd"] [ProcessExist "sshd" 300] 0 Hrun).
Defined.
